(** * gator: the feed polling and ingestion engine

    A shallow embedding of [scrapeFeeds], [fetchFeed], [unescapeFeed] and
    the polling loop of [handlerAgg] (package main), over an explicit
    [World]: the rows of the [posts] and [feeds] tables, the trace of
    observable effects, and the answers of everything the program does
    not control (the network, the clock, the identity generator, the
    standard library's parsers). *)

From Stdlib Require Import String Ascii List ZArith Bool Arith Lia.
Import ListNotations.
Local Open Scope string_scope.
Local Open Scope list_scope.
Local Open Scope Z_scope.

(** ** Go values *)

(** A Go [error] is identified with the text [err.Error()] returns. *)
Definition error := string.

(** A call that returns [(value, err)] and whose value is only read when
    [err == nil]. *)
Inductive Result (A : Type) : Type :=
| Ok (a : A)
| Err (e : error).
Arguments Ok {A} a.
Arguments Err {A} e.

Definition UUID := Z.
Definition Time := Z.

(** String concatenation of the pieces of a format ([fmt.Errorf],
    [fmt.Fprintf] with [%s] and [%w] verbs only). *)
Fixpoint cat (parts : list string) : string :=
  match parts with
  | [] => EmptyString
  | s :: tl => String.append s (cat tl)
  end.

Definition dquote : string := String "034"%char EmptyString.
Definition newline : string := String "010"%char EmptyString.

(** ** The parsed document (types [RSSFeed], [RSSItem]) *)

Module RSSItem.
Record t : Type := mk {
  Title : string;
  Link : string;
  Description : string;
  PubDate : string
}.
End RSSItem.

Module Channel.
Record t : Type := mk {
  Title : string;
  Link : string;
  Description : string;
  Item : list RSSItem.t
}.
End Channel.

Module RSSFeed.
Record t : Type := mk { Channel : Channel.t }.
End RSSFeed.

(** ** Rows of the store (package database, schema 002_feeds, 005_posts) *)

Module Post.
Record t : Type := mk {
  ID : UUID;
  CreatedAt : Time;
  UpdatedAt : Time;
  Title : string;
  Url : string;
  Description : string;
  PublishedAt : Time;
  FeedID : UUID
}.
End Post.

(** [database.CreatePostParams]: the eight positional values of the
    [CreatePost] query, which returns the inserted row unchanged
    ([RETURNING *]). *)
Definition CreatePostParams := Post.t.

Module Feed.
Record t : Type := mk {
  ID : UUID;
  CreatedAt : Time;
  UpdatedAt : Time;
  Name : string;
  Url : string;
  UserID : UUID;
  LastFetchedAt : option Time
}.
End Feed.

(** The zero value of [database.Feed], what a query returns beside a
    non-nil error. *)
Definition zeroFeed : Feed.t :=
  Feed.mk 0 0 0 EmptyString EmptyString 0 None.

(** ** HTTP *)

Record Request : Type := mkRequest {
  Method : string;
  URL : string;
  Header : list (string * string)
}.

(** A response, as far as [fetchFeed] looks at it: what [io.ReadAll]
    makes of its body. *)
Record Response : Type := mkResponse { Body : Result string }.

Definition Header_Set (k v : string) (req : Request) : Request :=
  mkRequest (Method req) (URL req)
    ((k, v) :: filter (fun kv => negb (String.eqb (fst kv) k)) (Header req)).

(** ** The environment

    Everything the program calls and does not define.  The library
    functions are fixed functions; the answers of the outside world are
    indexed by the number of effectful calls made so far ([nonce]). *)
Record Env : Type := mkEnv {
  html_UnescapeString : string -> string;
  time_Parse : string -> string -> Result Time;
  time_ParseDuration : string -> Result Z;
  xml_Unmarshal : string -> Result RSSFeed.t;
  http_NewRequest : string -> string -> Result Request;
  http_Do_at : nat -> Request -> Result Response;
  now_at : nat -> Time;
  uuid_at : nat -> UUID;
  db_fault_at : nat -> option error
}.

(** Observable effects, in the order they happen. *)
Inductive Event : Type :=
| EvGetNextFeedToFetch
| EvMarkFeedFetched (id : UUID) (now : Time)
| EvHTTP (req : Request)
| EvCreatePost (arg : CreatePostParams) (err : option error)
| EvStdout (line : string)
| EvStderr (text : string)
| EvTick.

Record World : Type := mkWorld {
  posts : list Post.t;
  feeds : list Feed.t;
  trace : list Event;
  nonce : nat;
  env : Env
}.

Definition log (e : Event) (w : World) : World :=
  mkWorld (posts w) (feeds w) (trace w ++ [e]) (nonce w) (env w).

Definition bump (w : World) : World :=
  mkWorld (posts w) (feeds w) (trace w) (S (nonce w)) (env w).

Definition set_posts (ps : list Post.t) (w : World) : World :=
  mkWorld ps (feeds w) (trace w) (nonce w) (env w).

Definition set_feeds (fs : list Feed.t) (w : World) : World :=
  mkWorld (posts w) fs (trace w) (nonce w) (env w).

(** What has been printed on standard output, and on standard error. *)
Fixpoint stdout_of (tr : list Event) : list string :=
  match tr with
  | [] => []
  | EvStdout s :: tl => s :: stdout_of tl
  | _ :: tl => stdout_of tl
  end.

Fixpoint stderr_of (tr : list Event) : list string :=
  match tr with
  | [] => []
  | EvStderr s :: tl => s :: stderr_of tl
  | _ :: tl => stderr_of tl
  end.

Definition stdout (w : World) : list string := stdout_of (trace w).
Definition stderr (w : World) : list string := stderr_of (trace w).

(** ** A small state monad over the world *)

Definition M (A : Type) : Type := World -> World * A.

Definition ret {A : Type} (a : A) : M A := fun w => (w, a).

Definition bind {A B : Type} (m : M A) (k : A -> M B) : M B :=
  fun w => let '(w1, a) := m w in k a w1.

Declare Scope go_scope.
Delimit Scope go_scope with go.
Notation "x <- m ;; k" := (bind m (fun x => k))
  (at level 61, m at next level, right associativity) : go_scope.
Notation "m ;;; k" := (bind m (fun _ => k))
  (at level 61, right associativity) : go_scope.
Local Open Scope go_scope.

(** [fmt.Println(s)] and [fmt.Fprintf(os.Stderr, ...)]. *)
Definition Println (s : string) : M unit := fun w => (log (EvStdout s) w, tt).
Definition Eprint (s : string) : M unit := fun w => (log (EvStderr s) w, tt).

(** [time.Now()] and [uuid.New()]: the next answer of the environment. *)
Definition time_Now : M Time :=
  fun w => (bump w, now_at (env w) (nonce w)).

Definition uuid_New : M UUID :=
  fun w => (bump w, uuid_at (env w) (nonce w)).

(** ** The store *)

Definition sql_ErrNoRows : error := "sql: no rows in result set".

(** The messages of the three constraints of table [posts]
    (005_posts.sql: [id uuid PRIMARY KEY], [url text UNIQUE NOT NULL],
    [feed_id uuid NOT NULL REFERENCES feeds]) as the driver words them. *)
Definition pq_unique_violation (constraint : string) : error :=
  cat ["pq: duplicate key value violates unique constraint ";
       dquote; constraint; dquote].

Definition posts_pkey : error := pq_unique_violation "posts_pkey".
Definition posts_url_key : error := pq_unique_violation "posts_url_key".
Definition posts_feed_id_fkey : error :=
  cat ["pq: insert or update on table "; dquote; "posts"; dquote;
       " violates foreign key constraint "; dquote; "posts_feed_id_fkey";
       dquote].

Definition has_post_id (id : UUID) (ps : list Post.t) : bool :=
  existsb (fun p => Post.ID p =? id) ps.

Definition has_post_url (url : string) (ps : list Post.t) : bool :=
  existsb (fun p => String.eqb (Post.Url p) url) ps.

Definition has_feed_id (id : UUID) (fs : list Feed.t) : bool :=
  existsb (fun f => Feed.ID f =? id) fs.

(** [CreatePost] (the query [INSERT INTO posts ... RETURNING *]): the
    statement fails without touching the table when the connection or
    the server fails ([db_fault_at]) or when a constraint of the schema
    rejects the row; otherwise the row is appended. *)
Definition CreatePost (arg : CreatePostParams) : M (Result Post.t) :=
  fun w =>
    let w1 := bump w in
    let verdict :=
      match db_fault_at (env w) (nonce w) with
      | Some e => Some e
      | None =>
          if has_post_id (Post.ID arg) (posts w) then Some posts_pkey
          else if has_post_url (Post.Url arg) (posts w) then Some posts_url_key
          else if negb (has_feed_id (Post.FeedID arg) (feeds w))
               then Some posts_feed_id_fkey
          else None
      end in
    match verdict with
    | Some e => (log (EvCreatePost arg (Some e)) w1, Err e)
    | None =>
        (log (EvCreatePost arg None) (set_posts (posts w ++ [arg]) w1), Ok arg)
    end.

(** Nulls first, then the earlier timestamp first. *)
Definition fetched_leb (a b : option Time) : bool :=
  match a, b with
  | None, _ => true
  | Some _, None => false
  | Some x, Some y => x <=? y
  end.

Fixpoint next_feed (fs : list Feed.t) : option Feed.t :=
  match fs with
  | [] => None
  | f :: tl =>
      match next_feed tl with
      | None => Some f
      | Some g =>
          if fetched_leb (Feed.LastFetchedAt f) (Feed.LastFetchedAt g)
          then Some f else Some g
      end
  end.

(** Modelled from the spec: the query method [GetNextFeedToFetch] of
    package database is not among the sources.  The spec gives it as
    [GetNextFeedToFetch() -> Feed | NotFound], earliest-last-fetched
    first with nulls first; ties go to the earlier row.  In Go the
    method returns [(Feed, error)], so NotFound is the zero row beside
    the error of a query without rows. *)
Definition GetNextFeedToFetch : M (Feed.t * option error) :=
  fun w =>
    (log EvGetNextFeedToFetch w,
     match next_feed (feeds w) with
     | Some f => (f, None)
     | None => (zeroFeed, Some sql_ErrNoRows)
     end).

Definition mark_row (id : UUID) (now : Time) (f : Feed.t) : Feed.t :=
  if Feed.ID f =? id
  then Feed.mk (Feed.ID f) (Feed.CreatedAt f) (Feed.UpdatedAt f) (Feed.Name f)
         (Feed.Url f) (Feed.UserID f) (Some now)
  else f.

(** Modelled from the spec: the query method [MarkFeedFetched] of
    package database is not among the sources.  The spec gives it as
    [MarkFeedFetched(feedId, timestamp) -> ok | NotFound]; the caller
    passes the identity only, so the timestamp is the clock's reading
    when the statement runs. *)
Definition MarkFeedFetched (id : UUID) : M (option error) :=
  fun w =>
    if has_feed_id id (feeds w)
    then
      let now := now_at (env w) (nonce w) in
      (log (EvMarkFeedFetched id now)
         (set_feeds (map (mark_row id now) (feeds w)) (bump w)), None)
    else (w, Some sql_ErrNoRows).

(** ** The program (package main) *)

(** [unescapeFeed]: the loop over [feed.Channel.Item] rewrites the title
    and the description of every item in place. *)
Definition unescapeItem (U : string -> string) (it : RSSItem.t) : RSSItem.t :=
  RSSItem.mk (U (RSSItem.Title it)) (RSSItem.Link it)
    (U (RSSItem.Description it)) (RSSItem.PubDate it).

Definition unescapeFeed (U : string -> string) (feed : RSSFeed.t) : RSSFeed.t :=
  let c := RSSFeed.Channel feed in
  RSSFeed.mk
    (Channel.mk (U (Channel.Title c)) (Channel.Link c)
       (U (Channel.Description c)) (map (unescapeItem U) (Channel.Item c))).

(** [http.DefaultClient.Do(req)]. *)
Definition http_Do (req : Request) : M (Result Response) :=
  fun w => (log (EvHTTP req) (bump w), http_Do_at (env w) (nonce w) req).

Definition fetchFeed (feedURL : string) : M (Result RSSFeed.t) :=
  fun w =>
    match http_NewRequest (env w) "GET" feedURL with
    | Err err => (w, Err err)
    | Ok req =>
        let req := Header_Set "User-Agent" "gator" req in
        let '(w1, r) := http_Do req w in
        match r with
        | Err err => (w1, Err err)
        | Ok resp =>
            match Body resp with
            | Err err => (w1, Err err)
            | Ok body =>
                match xml_Unmarshal (env w) body with
                | Err err => (w1, Err err)
                | Ok feed =>
                    (w1, Ok (unescapeFeed (html_UnescapeString (env w)) feed))
                end
            end
        end
    end.

Definition RFC1123Z : string := "Mon, 02 Jan 2006 15:04:05 -0700".

(** The struct literal passed to [CreatePost]. *)
Definition postParams (feedRow : Feed.t) (item : RSSItem.t)
    (pubTime timeNow : Time) (id : UUID) : CreatePostParams :=
  Post.mk id timeNow timeNow (RSSItem.Title item) (RSSItem.Link item)
    (RSSItem.Description item) pubTime (Feed.ID feedRow).

(** The literal the loop compares a store error's text with. *)
Definition duplicate_url_message : string :=
  cat ["pq: duplicate key value violates unique constraint ";
       dquote; "posts_url_key"; dquote].

(** [err != nil && err.Error() != duplicate_url_message]: the error
    the loop prints, if any. *)
Definition reported (r : Result Post.t) : option error :=
  match r with
  | Ok _ => None
  | Err e => if negb (String.eqb e duplicate_url_message) then Some e else None
  end.

(** [timeNow := time.Now()] and the call of [CreatePost] with a fresh
    identity. *)
Definition insertItem (feedRow : Feed.t) (item : RSSItem.t)
    (pubTime : Time) : M (Result Post.t) :=
  timeNow <- time_Now ;;
  id <- uuid_New ;;
  CreatePost (postParams feedRow item pubTime timeNow id).

(** The body of [for _, item := range feed.Channel.Item]: [Some err] is
    the [return] inside the loop, [None] falls through to the next
    item. *)
Definition scrapeItem (feedRow : Feed.t) (feed : RSSFeed.t)
    (item : RSSItem.t) : M (option error) :=
  fun w =>
    match time_Parse (env w) RFC1123Z (RSSItem.PubDate item) with
    | Err err =>
        (w, Some (cat ["Couldn't parse date '"; RSSItem.PubDate item;
                       "' in feed '"; Channel.Title (RSSFeed.Channel feed);
                       "': "; err]))
    | Ok pubTime =>
        (r <- insertItem feedRow item pubTime ;;
         match reported r with
         | Some msg => Println msg ;;; ret None
         | None => ret None
         end) w
    end.

Fixpoint scrapeItems (feedRow : Feed.t) (feed : RSSFeed.t)
    (items : list RSSItem.t) : M (option error) :=
  match items with
  | [] => ret None
  | item :: rest =>
      r <- scrapeItem feedRow feed item ;;
      match r with
      | Some err => ret (Some err)
      | None => scrapeItems feedRow feed rest
      end
  end.

Definition scrapeFeeds : M (option error) :=
  r <- GetNextFeedToFetch ;;
  let '(feedRow, err) := r in
  match err with
  | Some err =>
      ret (Some (cat ["Error getting feed '"; Feed.Name feedRow;
                      "' from DB: "; err]))
  | None =>
      err <- MarkFeedFetched (Feed.ID feedRow) ;;
      match err with
      | Some err =>
          ret (Some (cat ["Error marking feed '"; Feed.Name feedRow;
                          "' fetched: "; err]))
      | None =>
          r <- fetchFeed (Feed.Url feedRow) ;;
          match r with
          | Err err =>
              ret (Some (cat ["Error fetching feed '"; Feed.Name feedRow;
                              "': "; err]))
          | Ok feed =>
              scrapeItems feedRow feed (Channel.Item (RSSFeed.Channel feed))
          end
      end
  end.

(** [handlerAgg]: the command and how a call of it can end.  The loop
    [for ; ; <-ticker.C] has no condition and its body no [break] or
    [return]; [fuel] bounds how many passes are unfolded, and [Running]
    says the loop is still going when they are done. *)
Record command : Type := mkCommand {
  name : string;
  args : list string
}.

Inductive Exit : Type :=
| Returned (err : option error)
| Panicked (msg : string)
| Running.

(** [<-ticker.C]. *)
Definition wait_tick : M unit := fun w => (log EvTick w, tt).

Definition scrape_error_line (err : error) : string :=
  cat ["Error scraping feed: "; err; newline].

(** One pass: the body, then the post statement. *)
Definition agg_pass : M unit :=
  err <- scrapeFeeds ;;
  match err with
  | Some err => Eprint (scrape_error_line err)
  | None => ret tt
  end ;;;
  wait_tick.

Fixpoint agg_loop (fuel : nat) : M Exit :=
  match fuel with
  | O => ret Running
  | S n => agg_pass ;;; agg_loop n
  end.

Definition handlerAgg (fuel : nat) (cmd : command) : M Exit :=
  fun w =>
    match args cmd with
    | [arg] =>
        match time_ParseDuration (env w) arg with
        | Err err =>
            (w, Returned (Some (cat ["Invalid duration '"; arg; "': "; err])))
        | Ok time_between_reqs =>
            if time_between_reqs <=? 0
            then (w, Panicked "non-positive interval for NewTicker")
            else agg_loop fuel w
        end
    | _ =>
        (w, Returned (Some "'agg' requires one argument: time_between_reqs"))
    end.

(** ** An environment to run the program in

    Instances of the library functions for the examples: each reads the
    inputs the standard library reads the same way, on the fragment the
    examples use. *)

Fixpoint assoc {A : Type} (key : string) (table : list (string * A)) : option A :=
  match table with
  | [] => None
  | (k, v) :: tl => if String.eqb k key then Some v else assoc key tl
  end.

(** The entities [html.EscapeString] produces, and their characters. *)
Definition entities : list (string * string) :=
  [("&amp;", "&"); ("&lt;", "<"); ("&gt;", ">");
   ("&#34;", dquote); ("&#39;", "'"); ("&quot;", dquote)].

Fixpoint entity_at (table : list (string * string)) (s : string)
    : option (nat * string) :=
  match table with
  | [] => None
  | (ent, repl) :: tl =>
      if String.prefix ent s then Some (String.length ent, repl)
      else entity_at tl s
  end.

(** One left-to-right pass; [skip] counts the characters of an entity
    still to be dropped. *)
Fixpoint unescape_from (skip : nat) (s : string) : string :=
  match s with
  | EmptyString => EmptyString
  | String c tl =>
      match skip with
      | S k => unescape_from k tl
      | O =>
          match entity_at entities s with
          | Some (len, repl) => String.append repl (unescape_from (len - 1) tl)
          | None => String c (unescape_from 0 tl)
          end
      end
  end.

Definition UnescapeString (s : string) : string := unescape_from 0 s.

Definition digit_of (c : ascii) : option Z :=
  let n := Z.of_nat (nat_of_ascii c) in
  if (48 <=? n) && (n <=? 57) then Some (n - 48) else None.

Fixpoint number_from (acc : Z) (s : string) : option Z :=
  match s with
  | EmptyString => Some acc
  | String c tl =>
      match digit_of c with
      | Some d => number_from (10 * acc + d) tl
      | None => None
      end
  end.

Definition number (s : string) : option Z :=
  match s with
  | EmptyString => None
  | _ => number_from 0 s
  end.

Fixpoint index_of (key : string) (names : list string) (i : Z) : option Z :=
  match names with
  | [] => None
  | n :: tl => if String.eqb n key then Some i else index_of key tl (i + 1)
  end.

Definition day_names : list string :=
  ["Sun"; "Mon"; "Tue"; "Wed"; "Thu"; "Fri"; "Sat"].

Definition month_names : list string :=
  ["Jan"; "Feb"; "Mar"; "Apr"; "May"; "Jun";
   "Jul"; "Aug"; "Sep"; "Oct"; "Nov"; "Dec"].

Definition leap_year (y : Z) : bool :=
  ((y mod 4 =? 0) && negb (y mod 100 =? 0)) || (y mod 400 =? 0).

Definition days_in (m y : Z) : Z :=
  if m =? 2 then (if leap_year y then 29 else 28)
  else if (m =? 4) || (m =? 6) || (m =? 9) || (m =? 11) then 30
  else 31.

(** Days from 1970-01-01 to the civil date. *)
Definition days_from_civil (y m d : Z) : Z :=
  let y' := if m <=? 2 then y - 1 else y in
  let era := y' / 400 in
  let yoe := y' - era * 400 in
  let mp := if m <=? 2 then m + 9 else m - 3 in
  let doy := (153 * mp + 2) / 5 + d - 1 in
  let doe := yoe * 365 + yoe / 4 - yoe / 100 + doy in
  era * 146097 + doe - 719468.

(** The fixed-width rendering of [RFC1123Z], read field by field; the
    result is in seconds since the epoch. *)
Definition read_RFC1123Z (value : string) : option Time :=
  let f := fun i n => String.substring i n value in
  if negb (Nat.eqb (String.length value) 31) then None
  else if negb (String.eqb (f 3%nat 2%nat) ", " && String.eqb (f 7%nat 1%nat) " "
                && String.eqb (f 11%nat 1%nat) " " && String.eqb (f 16%nat 1%nat) " "
                && String.eqb (f 19%nat 1%nat) ":" && String.eqb (f 22%nat 1%nat) ":"
                && String.eqb (f 25%nat 1%nat) " ") then None
  else
    match index_of (f 0%nat 3%nat) day_names 0, number (f 5%nat 2%nat),
          index_of (f 8%nat 3%nat) month_names 1, number (f 12%nat 4%nat),
          number (f 17%nat 2%nat), number (f 20%nat 2%nat),
          number (f 23%nat 2%nat),
          assoc (f 26%nat 1%nat) [("+", 1); ("-", -1)],
          number (f 27%nat 2%nat), number (f 29%nat 2%nat) with
    | Some _, Some d, Some m, Some y, Some hh, Some mm, Some ss,
      Some sign, Some zh, Some zm =>
        if (1 <=? d) && (d <=? days_in m y) && (hh <? 24) && (mm <? 60)
           && (ss <? 60) && (zh <=? 24) && (zm <=? 60)
        then Some (days_from_civil y m d * 86400 + hh * 3600 + mm * 60 + ss
                   - sign * (zh * 3600 + zm * 60))
        else None
    | _, _, _, _, _, _, _, _, _, _ => None
    end.

Definition Parse (layout value : string) : Result Time :=
  if String.eqb layout RFC1123Z then
    match read_RFC1123Z value with
    | Some t => Ok t
    | None =>
        Err (cat ["parsing time "; dquote; value; dquote; " as "; dquote;
                  layout; dquote; ": cannot parse"])
    end
  else Err "layout not supported".

Fixpoint split_digits (s : string) : string * string :=
  match s with
  | EmptyString => (EmptyString, EmptyString)
  | String c tl =>
      match digit_of c with
      | Some _ => let '(ds, rest) := split_digits tl in (String c ds, rest)
      | None => (EmptyString, s)
      end
  end.

(** Durations of the shape digits-unit, in nanoseconds. *)
Definition ParseDuration (s : string) : Result Z :=
  let '(ds, unit) := split_digits s in
  match number ds,
        assoc unit [("ns", 1); ("us", 1000); ("ms", 1000000);
                    ("s", 1000000000); ("m", 60000000000);
                    ("h", 3600000000000)] with
  | Some n, Some u => Ok (n * u)
  | _, _ => Err (cat ["time: invalid duration "; dquote; s; dquote])
  end.

Definition control_free (s : string) : bool :=
  forallb (fun c => Nat.leb 32 (nat_of_ascii c)) (list_ascii_of_string s).

Definition NewRequest (method url : string) : Result Request :=
  if control_free url then Ok (mkRequest method url [])
  else Err "net/url: invalid control character in URL".

(** The network and the decoder by table: what each address serves, and
    what each body decodes to. *)
Definition Do_from (sites : list (string * Result string))
    (_ : nat) (req : Request) : Result Response :=
  match assoc (URL req) sites with
  | Some body => Ok (mkResponse body)
  | None => Err "dial tcp: no such host"
  end.

Definition Unmarshal_from (docs : list (string * RSSFeed.t))
    (body : string) : Result RSSFeed.t :=
  match assoc body docs with
  | Some feed => Ok feed
  | None => Err "EOF"
  end.

Definition no_fault : nat -> option error := fun _ => None.

Definition fault_at (k : nat) (e : error) : nat -> option error :=
  fun n => if Nat.eqb n k then Some e else None.

Definition demoEnv (sites : list (string * Result string))
    (docs : list (string * RSSFeed.t)) (faults : nat -> option error) : Env :=
  mkEnv UnescapeString Parse ParseDuration (Unmarshal_from docs) NewRequest
    (Do_from sites) (fun n => 1700000000 + Z.of_nat n)
    (fun n => 1000 + Z.of_nat n) faults.

Definition date1 : string := "Mon, 02 Jan 2006 15:04:05 -0700".
Definition date2 : string := "Tue, 03 Jan 2006 08:00:00 +0000".

Definition item1 : RSSItem.t :=
  RSSItem.mk "A &amp; B" "https://blog.example/1?a=1&amp;b=2" "x &lt; y" date1.
Definition item2 : RSSItem.t :=
  RSSItem.mk "Second" "https://blog.example/2" "two" date2.
Definition item_bad : RSSItem.t :=
  RSSItem.mk "Undated" "https://blog.example/3" "three" "yesterday".
Definition item3 : RSSItem.t :=
  RSSItem.mk "Fourth" "https://blog.example/4" "four" date2.

Definition doc (items : list RSSItem.t) : RSSFeed.t :=
  RSSFeed.mk (Channel.mk "News &amp; more" "https://blog.example/?x&amp;y"
                "All &lt;the&gt; news" items).

Definition blog : Feed.t :=
  Feed.mk 7 10 10 "blog" "https://blog.example/index.xml" 1 None.
Definition wire : Feed.t :=
  Feed.mk 8 11 11 "wire" "https://wire.example/rss" 1 (Some 1600000000).

(** A world with the given tables in which the blog serves [items]. *)
Definition demoWorld (ps : list Post.t) (fs : list Feed.t)
    (items : list RSSItem.t) (faults : nat -> option error) : World :=
  mkWorld ps fs [] 0
    (demoEnv [("https://blog.example/index.xml", Ok "<rss>blog</rss>");
              ("https://wire.example/rss", Err "unexpected EOF")]
       [("<rss>blog</rss>", doc items)] faults).

(** * The commands (package main) and the configuration file (package config) *)

From Stdlib Require Import DecimalString.

(** ** Values of the remaining queries

    The rows and parameter structs of package database, with the fields
    the handlers read or fill in. *)

Module User.
Record t : Type := mk {
  ID : UUID;
  CreatedAt : Time;
  UpdatedAt : Time;
  Name : string
}.
End User.

Definition CreateUserParams := User.t.

Module CreateFeedParams.
Record t : Type := mk {
  ID : UUID;
  CreatedAt : Time;
  UpdatedAt : Time;
  Name : string;
  Url : string;
  UserID : UUID
}.
End CreateFeedParams.

Module GetFeedsRow.
Record t : Type := mk {
  Name : string;
  Url : string;
  Username : string
}.
End GetFeedsRow.

Module CreateFeedFollowParams.
Record t : Type := mk {
  ID : UUID;
  CreatedAt : Time;
  UpdatedAt : Time;
  FeedID : UUID;
  UserID : UUID
}.
End CreateFeedFollowParams.

Module CreateFeedFollowRow.
Record t : Type := mk {
  UserName : string;
  FeedName : string
}.
End CreateFeedFollowRow.

Module GetFeedFollowsForUserRow.
Record t : Type := mk {
  FeedName : string;
  Url : string;
  FeedID : UUID
}.
End GetFeedFollowsForUserRow.

Module UnfollowFeedParams.
Record t : Type := mk {
  UserID : UUID;
  FeedID : UUID
}.
End UnfollowFeedParams.

Module GetPostsForUserParams.
Record t : Type := mk {
  ID : UUID;
  Limit : Z
}.
End GetPostsForUserParams.

(** [config.Config]. *)
Record Config : Type := mkConfig {
  DbURL : string;
  CurrentUserName : string
}.

Definition zeroConfig : Config := mkConfig EmptyString EmptyString.

Definition configFilename : string := "gatorconfig.json".

(** ** The process

    The queries of package database other than [CreatePost] are not
    among the sources: a call of one is recorded and answered by the
    environment.  So are the functions of [os], [encoding/json],
    [path/filepath], [strconv] and the [%v] rendering of a row. *)
Inductive Call : Type :=
| CallGetUser (name : string)
| CallCreateUser (arg : CreateUserParams)
| CallReset
| CallGetUsers
| CallCreateFeed (arg : CreateFeedParams.t)
| CallGetFeeds
| CallGetFeedByURL (url : string)
| CallCreateFeedFollow (arg : CreateFeedFollowParams.t)
| CallGetFeedFollowsForUser (id : UUID)
| CallUnfollowFeed (arg : UnfollowFeedParams.t)
| CallGetPostsForUser (arg : GetPostsForUserParams.t)
| CallWriteFile (path data : string).

Record Answers : Type := mkAnswers {
  GetUser_at : nat -> string -> Result User.t;
  CreateUser_at : nat -> CreateUserParams -> Result User.t;
  Reset_at : nat -> option error;
  GetUsers_at : nat -> Result (list string);
  CreateFeed_at : nat -> CreateFeedParams.t -> Result Feed.t;
  GetFeeds_at : nat -> Result (list GetFeedsRow.t);
  GetFeedByURL_at : nat -> string -> Result Feed.t;
  CreateFeedFollow_at :
    nat -> CreateFeedFollowParams.t -> Result CreateFeedFollowRow.t;
  GetFeedFollowsForUser_at :
    nat -> UUID -> Result (list GetFeedFollowsForUserRow.t);
  UnfollowFeed_at : nat -> UnfollowFeedParams.t -> option error;
  GetPostsForUser_at : nat -> GetPostsForUserParams.t -> Result (list Post.t);
  os_UserConfigDir : Result string;
  os_WriteFile_at : nat -> string -> option (error * option (Result string));
  filepath_Join : string -> string -> string;
  json_Marshal : Config -> Result string;
  json_Unmarshal : string -> Result Config;
  strconv_Atoi : string -> Result Z;
  Sprint_User : User.t -> string;
  Sprint_Feed : Feed.t -> string
}.

(** [state] of package main ([db], [config]) together with what the
    process reaches through it: [db] is the store with the clock and the
    output of the process, [files] what [os.ReadFile] makes of each
    path, [calls] the recorded calls. *)
Record state : Type := mkState {
  db : World;
  config : Config;
  files : string -> Result string;
  calls : list Call;
  answers : Answers
}.

Definition set_db (w : World) (s : state) : state :=
  mkState w (config s) (files s) (calls s) (answers s).

Definition set_config (c : Config) (s : state) : state :=
  mkState (db s) c (files s) (calls s) (answers s).

Definition set_files (f : string -> Result string) (s : state) : state :=
  mkState (db s) (config s) f (calls s) (answers s).

Definition add_call (c : Call) (s : state) : state :=
  mkState (db s) (config s) (files s) (calls s ++ [c]) (answers s).

Definition P (A : Type) : Type := state -> state * A.

Definition retP {A : Type} (a : A) : P A := fun s => (s, a).

Definition bindP {A B : Type} (m : P A) (k : A -> P B) : P B :=
  fun s => let '(s1, a) := m s in k a s1.

Declare Scope proc_scope.
Delimit Scope proc_scope with proc.
Notation "x <- m ;; k" := (bindP m (fun x => k))
  (at level 61, m at next level, right associativity) : proc_scope.
Notation "m ;;; k" := (bindP m (fun _ => k))
  (at level 61, right associativity) : proc_scope.
Local Open Scope proc_scope.

(** A step of the polling engine, run by the process. *)
Definition liftW {A : Type} (m : M A) : P A :=
  fun s => let '(w, a) := m (db s) in (set_db w s, a).

(** A recorded call, answered by the environment. *)
Definition ask {A : Type} (c : Call) (answer : Answers -> nat -> A) : P A :=
  fun s => (add_call c s, answer (answers s) (length (calls s))).

(** [strconv.Itoa] and the verb [%d]. *)
Definition Itoa (n : Z) : string := NilZero.string_of_int (Z.to_int n).

(** The conversion [int32(n)] of an [int]. *)
Definition int32 (n : Z) : Z := (n + 2147483648) mod 4294967296 - 2147483648.

(** ** Package config *)

Definition getConfigFilePath : P (Result string) :=
  fun s =>
    match os_UserConfigDir (answers s) with
    | Err err =>
        (s, Err (cat ["Error getting user config directory: "; err]))
    | Ok configDir =>
        (s, Ok (filepath_Join (answers s) configDir configFilename))
    end.

(** The file system after [path] has come to read as [r]. *)
Definition file_becomes (path : string) (r : Result string) (s : state)
    : state :=
  set_files (fun p => if String.eqb p path then r else files s p) s.

(** [os.WriteFile(path, data, 0644)]: the environment says whether the
    write fails, and then with which error and what the path reads as
    afterwards, if it was touched at all. *)
Definition os_WriteFile (path data : string) : P (option error) :=
  fun s =>
    match os_WriteFile_at (answers s) (length (calls s)) path with
    | Some (err, after) =>
        (add_call (CallWriteFile path data)
           match after with
           | Some r => file_becomes path r s
           | None => s
           end,
         Some err)
    | None =>
        (add_call (CallWriteFile path data) (file_becomes path (Ok data) s),
         None)
    end.

Definition writeConfig (c : Config) : P (option error) :=
  r <- getConfigFilePath ;;
  match r with
  | Err err =>
      retP (Some (cat ["Error writing config file; couldn't get path: "; err]))
  | Ok configFilePath =>
      fun s =>
        match json_Marshal (answers s) c with
        | Err err =>
            (s, Some (cat ["Error writing config file: couldn't marshal to JSON: ";
                           err]))
        | Ok dataBuffer =>
            (err <- os_WriteFile configFilePath dataBuffer ;;
             match err with
             | Some err =>
                 retP (Some (cat ["Error writing config file; write failed: ";
                                  err]))
             | None => retP None
             end) s
        end
  end.

(** [config.Read]. *)
Definition config_Read : P (Config * option error) :=
  r <- getConfigFilePath ;;
  match r with
  | Err err => retP (zeroConfig, Some err)
  | Ok configFilePath =>
      fun s =>
        match files s configFilePath with
        | Err err =>
            (s, (zeroConfig,
                 Some (cat ["Error reading user config file: "; err])))
        | Ok rawData =>
            match json_Unmarshal (answers s) rawData with
            | Err err =>
                (s, (zeroConfig,
                     Some (cat ["Error reading JSON in config: "; err])))
            | Ok c => (s, (c, None))
            end
        end
  end.

(** The method [SetUser] of [Config], on [s.config]: the field is
    assigned first, the file is written from the updated value. *)
Definition config_SetUser (username : string) : P (option error) :=
  fun s =>
    let c := mkConfig (DbURL (config s)) username in
    writeConfig c (set_config c s).

(** ** The handlers *)

Definition Out (line : string) : P unit := liftW (Println line).

Definition fails (msg : error) : P Exit := retP (Returned (Some msg)).

Definition handlerLogin (cmd : command) : P Exit :=
  match args cmd with
  | [] => fails "No username specified"
  | _ :: _ :: _ => fails "Only one username allowed"
  | [userToLogin] =>
      r <- ask (CallGetUser userToLogin)
             (fun a n => GetUser_at a n userToLogin) ;;
      match r with
      | Err err =>
          fails (cat ["Could not login user "; userToLogin; ": "; err])
      | Ok _ =>
          err <- config_SetUser userToLogin ;;
          match err with
          | Some err => fails (cat ["Error logging in: "; err])
          | None =>
              Out (cat ["user set to: '"; userToLogin; "'"]) ;;;
              retP (Returned None)
          end
      end
  end.

Definition handlerRegister (cmd : command) : P Exit :=
  match args cmd with
  | [] => fails "No username specified"
  | _ :: _ :: _ => fails "Only one username allowed"
  | [userToCreate] =>
      timeNow <- liftW time_Now ;;
      id <- liftW uuid_New ;;
      let arg := User.mk id timeNow timeNow userToCreate in
      r <- ask (CallCreateUser arg) (fun a n => CreateUser_at a n arg) ;;
      match r with
      | Err err => fails (cat ["Could not create user: "; err])
      | Ok userRet =>
          err <- config_SetUser userToCreate ;;
          match err with
          | Some err =>
              fails (cat ["Error logging in with newly created user: "; err])
          | None =>
              Out "user created and logged in" ;;;
              (fun s => Out (Sprint_User (answers s) userRet) s) ;;;
              retP (Returned None)
          end
      end
  end.

Definition handlerReset (cmd : command) : P Exit :=
  match args cmd with
  | [] =>
      err <- ask CallReset Reset_at ;;
      match err with
      | Some err => fails (cat ["Could not reset users: "; err])
      | None => retP (Returned None)
      end
  | _ => fails "'reset' takes no arguments"
  end.

(** The loop of [handlerUsers]: [Print] of the name, [Print] of the
    mark, [Println] make one line. *)
Fixpoint print_users (current : string) (users : list string) : P unit :=
  match users with
  | [] => retP tt
  | user :: rest =>
      Out (cat [user; if String.eqb user current then " (current)"
                      else EmptyString]) ;;;
      print_users current rest
  end.

Definition handlerUsers (cmd : command) : P Exit :=
  match args cmd with
  | [] =>
      r <- ask CallGetUsers GetUsers_at ;;
      match r with
      | Err err => fails (cat ["Error fetching users: "; err])
      | Ok users =>
          (fun s => print_users (CurrentUserName (config s)) users s) ;;;
          retP (Returned None)
      end
  | _ => fails "'users' takes no arguments"
  end.

Definition handlerFollow (cmd : command) (user : User.t) : P Exit :=
  match args cmd with
  | [feedURL] =>
      r <- ask (CallGetFeedByURL feedURL)
             (fun a n => GetFeedByURL_at a n feedURL) ;;
      match r with
      | Err err =>
          fails (cat ["Error getting feed for URL '"; feedURL; "': "; err])
      | Ok feed =>
          timeNow <- liftW time_Now ;;
          id <- liftW uuid_New ;;
          let arg := CreateFeedFollowParams.mk id timeNow timeNow
                       (Feed.ID feed) (User.ID user) in
          r <- ask (CallCreateFeedFollow arg)
                 (fun a n => CreateFeedFollow_at a n arg) ;;
          match r with
          | Err err => fails (cat ["Error following feed: "; err])
          | Ok followRec =>
              Out (cat ["User '"; CreateFeedFollowRow.UserName followRec;
                        "' is now following feed '";
                        CreateFeedFollowRow.FeedName followRec; "'"]) ;;;
              retP (Returned None)
          end
      end
  | _ => fails "'follow' requires a feed URL argument"
  end.

Definition handlerAddfeed (cmd : command) (user : User.t) : P Exit :=
  match args cmd with
  | [feedName; feedURL] =>
      timeNow <- liftW time_Now ;;
      id <- liftW uuid_New ;;
      let arg := CreateFeedParams.mk id timeNow timeNow feedName feedURL
                   (User.ID user) in
      r <- ask (CallCreateFeed arg) (fun a n => CreateFeed_at a n arg) ;;
      match r with
      | Err err =>
          fails (cat ["Error adding feed for user "; User.Name user; ": "; err])
      | Ok madeFeed =>
          (fun s => Out (Sprint_Feed (answers s) madeFeed) s) ;;;
          r <- handlerFollow (mkCommand "follow" [feedURL]) user ;;
          match r with
          | Returned (Some err) =>
              fails (cat ["Error autofollowing newly created feed: "; err])
          | Returned None => retP (Returned None)
          | other => retP other
          end
      end
  | _ => fails "'addfeed' requires two arguments: addfeed <name> <url>"
  end.

Fixpoint print_feeds (i : Z) (feeds : list GetFeedsRow.t) : P unit :=
  match feeds with
  | [] => retP tt
  | feed :: rest =>
      Out (cat [Itoa (i + 1); ") Feed: "; GetFeedsRow.Name feed]) ;;;
      Out (cat [" - URL: "; GetFeedsRow.Url feed]) ;;;
      Out (cat [" - User: "; GetFeedsRow.Username feed]) ;;;
      Out EmptyString ;;;
      print_feeds (i + 1) rest
  end.

Definition handlerFeeds (cmd : command) : P Exit :=
  match args cmd with
  | [] =>
      r <- ask CallGetFeeds GetFeeds_at ;;
      match r with
      | Err err => fails (cat ["Error getting feeds: "; err])
      | Ok feeds => print_feeds 0 feeds ;;; retP (Returned None)
      end
  | _ => fails "'feeds' takes no arguments"
  end.

Fixpoint print_lines (lines : list string) : P unit :=
  match lines with
  | [] => retP tt
  | l :: rest => Out l ;;; print_lines rest
  end.

Definition handlerFollowing (cmd : command) (user : User.t) : P Exit :=
  match args cmd with
  | [] =>
      r <- ask (CallGetFeedFollowsForUser (User.ID user))
             (fun a n => GetFeedFollowsForUser_at a n (User.ID user)) ;;
      match r with
      | Err err =>
          fails (cat ["Error getting feeds followed by user '";
                      User.Name user; "': "; err])
      | Ok feedsFollowing =>
          Out (cat ["Feeds followed by "; User.Name user; ":"]) ;;;
          print_lines (map GetFeedFollowsForUserRow.FeedName feedsFollowing) ;;;
          retP (Returned None)
      end
  | _ => fails "'following' doesn't take any arguments"
  end.

(** The search loop of [handlerUnfollow]: the first followed feed with
    the URL, where the loop breaks. *)
Fixpoint followed_feed (feedURL : string)
    (userFeeds : list GetFeedFollowsForUserRow.t) : option UUID :=
  match userFeeds with
  | [] => None
  | feed :: rest =>
      if String.eqb (GetFeedFollowsForUserRow.Url feed) feedURL
      then Some (GetFeedFollowsForUserRow.FeedID feed)
      else followed_feed feedURL rest
  end.

Definition handlerUnfollow (cmd : command) (user : User.t) : P Exit :=
  match args cmd with
  | [feedURL] =>
      r <- ask (CallGetFeedFollowsForUser (User.ID user))
             (fun a n => GetFeedFollowsForUser_at a n (User.ID user)) ;;
      match r with
      | Err err =>
          fails (cat ["Error getting feeds for user '"; User.Name user;
                      "': "; err])
      | Ok userFeeds =>
          match followed_feed feedURL userFeeds with
          | None => fails "you are not following this feed"
          | Some feedID =>
              let arg := UnfollowFeedParams.mk (User.ID user) feedID in
              err <- ask (CallUnfollowFeed arg)
                       (fun a n => UnfollowFeed_at a n arg) ;;
              match err with
              | Some err => fails (cat ["Error unfollowing feed: "; err])
              | None => retP (Returned None)
              end
          end
      end
  | _ => fails "'unfollow' takes only the URL of the feed to unfollow"
  end.

Fixpoint print_posts (i : Z) (posts : list Post.t) : P unit :=
  match posts with
  | [] => retP tt
  | post :: rest =>
      Out (cat ["Post "; Itoa (i + 1)]) ;;;
      Out (Post.Title post) ;;;
      Out (Post.Description post) ;;;
      Out (Post.Url post) ;;;
      Out EmptyString ;;;
      print_posts (i + 1) rest
  end.

(** The first half of [handlerBrowse]: the number of posts to ask for,
    or the error it returns instead. *)
Definition postsToFetch (a : Answers) (args : list string) : Result Z :=
  match args with
  | [] => Ok 2
  | [arg] =>
      match strconv_Atoi a arg with
      | Err err =>
          Err (cat ["Error parsing argument '"; arg; "' to number: "; err])
      | Ok n =>
          if n <=? 0 then Err "cannot fetch a non-positive number of posts"
          else Ok n
      end
  | _ => Err "'browse' take at most one parameter: <limit>"
  end.

Definition handlerBrowse (cmd : command) (user : User.t) : P Exit :=
  fun s =>
    match postsToFetch (answers s) (args cmd) with
    | Err err => (s, Returned (Some err))
    | Ok n =>
        let arg := GetPostsForUserParams.mk (User.ID user) (int32 n) in
        (r <- ask (CallGetPostsForUser arg)
                (fun a k => GetPostsForUser_at a k arg) ;;
         match r with
         | Err err =>
             fails (cat ["Error getting user posts from database: "; err])
         | Ok posts => print_posts 0 posts ;;; retP (Returned None)
         end) s
    end.

(** [middlewareLoggedIn]. *)
Definition middlewareLoggedIn (handler : command -> User.t -> P Exit)
    (cmd : command) : P Exit :=
  fun s =>
    let loggedInUser := CurrentUserName (config s) in
    (r <- ask (CallGetUser loggedInUser)
            (fun a n => GetUser_at a n loggedInUser) ;;
     match r with
     | Err err =>
         fails (cat ["Error looking up currently logged in user ";
                     loggedInUser; ": "; err])
     | Ok userInfo => handler cmd userInfo
     end) s.

(** [handlerAgg], run by the process. *)
Definition handlerAggP (fuel : nat) (cmd : command) : P Exit :=
  liftW (handlerAgg fuel cmd).

(** ** The registry *)

(** [commands]: the map from a name to its handler, latest entry
    first. *)
Record commands : Type := mkCommands {
  handlers : list (string * (command -> P Exit))
}.

Definition register (name : string) (f : command -> P Exit) (c : commands)
    : commands * option error :=
  (mkCommands ((name, f) :: handlers c), None).

Definition run (c : commands) (cmd : command) : P Exit :=
  match assoc (name cmd) (handlers c) with
  | None => fails (cat ["No such command: "; name cmd])
  | Some handler =>
      r <- handler cmd ;;
      match r with
      | Returned (Some err) => retP (Returned (Some err))
      | Returned None => retP (Returned None)
      | other => retP other
      end
  end.

(** [init]: the registrations, in the order they are made. *)
Definition registrations (fuel : nat) : list (string * (command -> P Exit)) :=
  [("login", handlerLogin);
   ("register", handlerRegister);
   ("reset", handlerReset);
   ("users", handlerUsers);
   ("agg", handlerAggP fuel);
   ("addfeed", middlewareLoggedIn handlerAddfeed);
   ("feeds", handlerFeeds);
   ("follow", middlewareLoggedIn handlerFollow);
   ("following", middlewareLoggedIn handlerFollowing);
   ("unfollow", middlewareLoggedIn handlerUnfollow);
   ("browse", middlewareLoggedIn handlerBrowse)].

Definition commandRegistry (fuel : nat) : commands :=
  fold_left (fun c nf => fst (register (fst nf) (snd nf) c))
    (registrations fuel) (mkCommands []).

Local Close Scope proc_scope.

(** ** The query [GetPostsForUser]

    The statement of the sources, read over the three tables it joins:
    [feed_follows INNER JOIN users ON users.id = feed_follows.user_id
    INNER JOIN posts ON feed_follows.feed_id = posts.feed_id
    WHERE users.id = $1 ORDER BY posts.published_at DESC LIMIT $2].
    Rows of equal date keep the order the join gives them. *)

Module FeedFollow.
Record t : Type := mk {
  ID : UUID;
  CreatedAt : Time;
  UpdatedAt : Time;
  UserID : UUID;
  FeedID : UUID
}.
End FeedFollow.

Definition posts_joined (users : list User.t) (follows : list FeedFollow.t)
    (ps : list Post.t) (id : UUID) : list Post.t :=
  flat_map
    (fun ff =>
       flat_map
         (fun u =>
            if (User.ID u =? FeedFollow.UserID ff) && (User.ID u =? id)
            then filter (fun p => FeedFollow.FeedID ff =? Post.FeedID p) ps
            else [])
         users)
    follows.

Fixpoint insert_by_date (p : Post.t) (sorted : list Post.t) : list Post.t :=
  match sorted with
  | [] => [p]
  | q :: tl =>
      if Post.PublishedAt q <? Post.PublishedAt p then p :: sorted
      else q :: insert_by_date p tl
  end.

Definition order_by_published_desc (ps : list Post.t) : list Post.t :=
  fold_right insert_by_date [] ps.

Definition GetPostsForUser (users : list User.t) (follows : list FeedFollow.t)
    (ps : list Post.t) (arg : GetPostsForUserParams.t) : Result (list Post.t) :=
  if GetPostsForUserParams.Limit arg <? 0
  then Err "pq: LIMIT must not be negative"
  else Ok (firstn (Z.to_nat (GetPostsForUserParams.Limit arg))
             (order_by_published_desc
                (posts_joined users follows ps (GetPostsForUserParams.ID arg)))).

(** Newest first: every row is at least as recent as all rows after
    it. *)
Fixpoint newest_first (l : list Post.t) : Prop :=
  match l with
  | [] => True
  | p :: tl =>
      (forall q, In q tl -> Post.PublishedAt q <= Post.PublishedAt p) /\
      newest_first tl
  end.

(** ** Answers to run the commands with *)

Definition no_rows {A : Type} : Result A := Err sql_ErrNoRows.

Fixpoint user_named (name : string) (users : list User.t) : Result User.t :=
  match users with
  | [] => no_rows
  | u :: tl => if String.eqb (User.Name u) name then Ok u else user_named name tl
  end.

Fixpoint feed_at (url : string) (fs : list Feed.t) : Result Feed.t :=
  match fs with
  | [] => no_rows
  | f :: tl => if String.eqb (Feed.Url f) url then Ok f else feed_at url tl
  end.

Definition Marshal (c : Config) : Result string :=
  Ok (cat ["{"; dquote; "db_url"; dquote; ":"; dquote; DbURL c; dquote; ",";
           dquote; "current_user_name"; dquote; ":"; dquote;
           CurrentUserName c; dquote; "}"]).

(** Decoding by table: the configurations whose encoding is known. *)
Fixpoint Unmarshal_among (known : list Config) (data : string) : Result Config :=
  match known with
  | [] => Err "unexpected end of JSON input"
  | c :: tl =>
      match Marshal c with
      | Ok d => if String.eqb d data then Ok c else Unmarshal_among tl data
      | Err _ => Unmarshal_among tl data
      end
  end.

Definition Atoi (s : string) : Result Z :=
  let r := match s with
           | String "-" tl => option_map Z.opp (number tl)
           | String "+" tl => number tl
           | _ => number s
           end in
  match r with
  | Some n => Ok n
  | None =>
      Err (cat ["strconv.Atoi: parsing "; dquote; s; dquote; ": invalid syntax"])
  end.

Definition no_files : string -> Result string :=
  fun p => Err (cat ["open "; p; ": no such file or directory"]).

Definition alice : User.t := User.mk 1 100 100 "alice".
Definition bob : User.t := User.mk 2 200 200 "bob".

Definition demoAnswers (users : list User.t)
    (follows : list GetFeedFollowsForUserRow.t) (known : list Config)
    (write_fault : nat -> string -> option (error * option (Result string)))
    : Answers :=
  mkAnswers
    (fun _ name => user_named name users)
    (fun _ arg => Ok arg)
    (fun _ => None)
    (fun _ => Ok (map User.Name users))
    (fun _ arg =>
       Ok (Feed.mk (CreateFeedParams.ID arg) (CreateFeedParams.CreatedAt arg)
             (CreateFeedParams.UpdatedAt arg) (CreateFeedParams.Name arg)
             (CreateFeedParams.Url arg) (CreateFeedParams.UserID arg) None))
    (fun _ => Ok [])
    (fun _ url => feed_at url [blog; wire])
    (fun _ arg => Ok (CreateFeedFollowRow.mk "alice" "blog"))
    (fun _ _ => Ok follows)
    (fun _ _ => None)
    (fun _ _ => Ok [])
    (Ok "/home/alice/.config")
    write_fault
    (fun dir file => cat [dir; "/"; file])
    Marshal
    (Unmarshal_among known)
    Atoi
    User.Name
    Feed.Name.

Definition demoState (c : Config) (users : list User.t)
    (follows : list GetFeedFollowsForUserRow.t)
    (write_fault : nat -> string -> option (error * option (Result string)))
    : state :=
  mkState (demoWorld [] [blog; wire] [item1; item2] no_fault) c no_files []
    (demoAnswers users follows
       [c; mkConfig (DbURL c) "alice"; mkConfig (DbURL c) "bob"] write_fault).

Definition cfg0 : Config := mkConfig "postgres://localhost/gator" EmptyString.

(** ** Conditions the statements below refer to *)

(** Every publication date of [items] is readable in the layout. *)
Definition dates_parse (E : Env) (items : list RSSItem.t) : Prop :=
  Forall (fun it => exists t, time_Parse E RFC1123Z (RSSItem.PubDate it) = Ok t)
    items.

(** The store answers every statement from the current one on. *)
Definition fault_free (w : World) : Prop :=
  forall n, (nonce w <= n)%nat -> db_fault_at (env w) n = None.

(** The identities still to be generated are not in the table, and no
    two of them are the same. *)
Definition ids_fresh (w : World) : Prop :=
  (forall n, (nonce w <= n)%nat ->
     has_post_id (uuid_at (env w) n) (posts w) = false) /\
  (forall m n, (nonce w <= m)%nat -> (m < n)%nat ->
     uuid_at (env w) m <> uuid_at (env w) n).

(** The clock never runs backwards, and no row carries a timestamp
    later than the clock's next reading. *)
Definition clock_monotone (E : Env) : Prop :=
  forall i j, (i <= j)%nat -> now_at E i <= now_at E j.

Definition timestamps_past (w : World) : Prop :=
  forall f t, In f (feeds w) -> Feed.LastFetchedAt f = Some t ->
    t <= now_at (env w) (nonce w).

(** Row by row, the same feeds with timestamps that have not gone
    back (no timestamp counts as the earliest). *)
Definition feeds_advance (before after : list Feed.t) : Prop :=
  Forall2 (fun f f' =>
             Feed.ID f = Feed.ID f' /\
             fetched_leb (Feed.LastFetchedAt f) (Feed.LastFetchedAt f') = true)
    before after.

(** How many times the loop has waited for the ticker. *)
Fixpoint ticks_of (tr : list Event) : nat :=
  match tr with
  | [] => O
  | EvTick :: tl => S (ticks_of tl)
  | _ :: tl => ticks_of tl
  end.

(** An operation that leaves the feeds alone, never waits for the
    ticker and only consumes answers of the environment. *)
Definition quiet (w w' : World) : Prop :=
  env w' = env w /\ feeds w' = feeds w /\ (nonce w <= nonce w')%nat /\
  exists l, trace w' = trace w ++ l /\ ticks_of l = O.

(** * Properties *)

(** Running the program on a concrete world: the returned value is
    computed, the returned world is left as the expression it is. *)
Ltac run_pair :=
  match goal with
  | |- ?m = (_, _) =>
      etransitivity; [apply (surjective_pairing m)|];
      apply f_equal2; [reflexivity | vm_compute; reflexivity]
  end.

Ltac run := first [run_pair | vm_compute; reflexivity].

(** ** The library instances on the inputs of the examples *)

Example read_RFC1123Z_layout : read_RFC1123Z date1 = Some 1136239445.
Proof. reflexivity. Qed.

Example UnescapeString_amp : UnescapeString "A &amp; B" = "A & B".
Proof. reflexivity. Qed.

Example UnescapeString_once : UnescapeString "A &amp;amp; B" = "A &amp; B".
Proof. reflexivity. Qed.

Example ParseDuration_1m : ParseDuration "1m" = Ok 60000000000.
Proof. reflexivity. Qed.

(** ** The wording of the messages *)

Lemma posts_url_key_literal : posts_url_key = duplicate_url_message.
Proof. reflexivity. Qed.

Lemma posts_pkey_not_literal : posts_pkey <> duplicate_url_message.
Proof. discriminate. Qed.

(** ** Frame facts of the primitive operations *)

Lemma stdout_of_app (l1 l2 : list Event) :
  stdout_of (l1 ++ l2) = stdout_of l1 ++ stdout_of l2.
Proof.
  induction l1 as [|e tl IH]; simpl; [reflexivity|].
  destruct e; simpl; rewrite ?IH; reflexivity.
Qed.

Lemma stdout_log (e : Event) (w : World) :
  stdout (log e w) =
  stdout w ++ match e with EvStdout s => [s] | _ => [] end.
Proof.
  unfold stdout, log; simpl. rewrite stdout_of_app.
  destruct e; reflexivity.
Qed.

Lemma insertItem_unfold feedRow item pubTime (w : World) :
  insertItem feedRow item pubTime w =
  CreatePost
    (postParams feedRow item pubTime (now_at (env w) (nonce w))
       (uuid_at (env w) (S (nonce w))))
    (bump (bump w)).
Proof. reflexivity. Qed.

Lemma CreatePost_Err arg e (w w' : World) :
  CreatePost arg w = (w', Err e) ->
  w' = log (EvCreatePost arg (Some e)) (bump w).
Proof.
  unfold CreatePost.
  destruct (db_fault_at (env w) (nonce w)) as [f|].
  - intros H; inversion H; reflexivity.
  - destruct (has_post_id (Post.ID arg) (posts w)).
    { intros H; inversion H; reflexivity. }
    destruct (has_post_url (Post.Url arg) (posts w)).
    { intros H; inversion H; reflexivity. }
    destruct (negb (has_feed_id (Post.FeedID arg) (feeds w)));
      intros H; inversion H; reflexivity.
Qed.

Lemma CreatePost_Ok arg p (w w' : World) :
  CreatePost arg w = (w', Ok p) ->
  p = arg /\
  w' = log (EvCreatePost arg None) (set_posts (posts w ++ [arg]) (bump w)).
Proof.
  unfold CreatePost.
  destruct (db_fault_at (env w) (nonce w)) as [f|].
  - intros H; inversion H.
  - destruct (has_post_id (Post.ID arg) (posts w)).
    { intros H; inversion H. }
    destruct (has_post_url (Post.Url arg) (posts w)).
    { intros H; inversion H. }
    destruct (negb (has_feed_id (Post.FeedID arg) (feeds w)));
      intros H; inversion H; auto.
Qed.

(** A failed insert leaves both tables as they were and prints nothing
    by itself. *)
Lemma insertItem_Err_frame feedRow item pubTime e (w w' : World) :
  insertItem feedRow item pubTime w = (w', Err e) ->
  posts w' = posts w /\ feeds w' = feeds w /\ env w' = env w /\
  stdout w' = stdout w /\ nonce w' = (3 + nonce w)%nat.
Proof.
  rewrite insertItem_unfold. intros H. apply CreatePost_Err in H. subst w'.
  rewrite stdout_log. unfold stdout. simpl. rewrite app_nil_r.
  repeat split.
Qed.

(** A successful insert appends exactly the row built from the item. *)
Lemma insertItem_Ok_frame feedRow item pubTime p (w w' : World) :
  insertItem feedRow item pubTime w = (w', Ok p) ->
  p = postParams feedRow item pubTime (now_at (env w) (nonce w))
        (uuid_at (env w) (S (nonce w))) /\
  posts w' = posts w ++ [p] /\ feeds w' = feeds w /\ env w' = env w /\
  stdout w' = stdout w /\ nonce w' = (3 + nonce w)%nat.
Proof.
  rewrite insertItem_unfold. intros H. apply CreatePost_Ok in H.
  destruct H as [-> ->]. rewrite stdout_log. unfold stdout. simpl.
  rewrite app_nil_r. repeat split.
Qed.

(** ** One pass of the loop body *)

Lemma scrapeItem_bad_date feedRow feed item err (w : World) :
  time_Parse (env w) RFC1123Z (RSSItem.PubDate item) = Err err ->
  scrapeItem feedRow feed item w =
  (w, Some (cat ["Couldn't parse date '"; RSSItem.PubDate item;
                 "' in feed '"; Channel.Title (RSSFeed.Channel feed);
                 "': "; err])).
Proof. intros H. unfold scrapeItem. rewrite H. reflexivity. Qed.

Lemma scrapeItem_insert feedRow feed item pubTime r (w w1 : World) :
  time_Parse (env w) RFC1123Z (RSSItem.PubDate item) = Ok pubTime ->
  insertItem feedRow item pubTime w = (w1, r) ->
  scrapeItem feedRow feed item w =
  (match reported r with
   | Some msg => log (EvStdout msg) w1
   | None => w1
   end, None).
Proof.
  intros HP HI. unfold scrapeItem. rewrite HP. unfold bind. rewrite HI.
  destruct (reported r); reflexivity.
Qed.

Lemma reported_duplicate : reported (Err duplicate_url_message) = None.
Proof. reflexivity. Qed.

Lemma reported_other (e : error) :
  e <> duplicate_url_message -> reported (Err e) = Some e.
Proof.
  intros H. unfold reported.
  destruct (String.eqb_spec e duplicate_url_message); [contradiction|reflexivity].
Qed.

(** ** The loop *)

Lemma scrapeItems_cons feedRow feed item rest (w w1 : World) :
  scrapeItem feedRow feed item w = (w1, None) ->
  scrapeItems feedRow feed (item :: rest) w = scrapeItems feedRow feed rest w1.
Proof. intros H. simpl. unfold bind. rewrite H. reflexivity. Qed.

Lemma scrapeItems_app feedRow feed pre rest (w w1 : World) :
  scrapeItems feedRow feed pre w = (w1, None) ->
  scrapeItems feedRow feed (pre ++ rest) w = scrapeItems feedRow feed rest w1.
Proof.
  revert w. induction pre as [|it pre IH]; intros w H.
  - simpl in H. unfold ret in H. inversion H. reflexivity.
  - simpl in *. unfold bind in *.
    destruct (scrapeItem feedRow feed it w) as [w' [e|]].
    + unfold ret in H. discriminate.
    + apply IH. exact H.
Qed.

(** The only error the loop returns is the date error of [scrapeItem];
    with every date readable it returns [nil]. *)
Lemma scrapeItem_env feedRow feed item (w : World) :
  env (fst (scrapeItem feedRow feed item w)) = env w.
Proof.
  unfold scrapeItem.
  destruct (time_Parse (env w) RFC1123Z (RSSItem.PubDate item)) as [t|e];
    [|reflexivity].
  unfold bind. rewrite insertItem_unfold.
  destruct (CreatePost _ (bump (bump w))) as [w1 r] eqn:HC.
  destruct r as [p|e].
  - apply CreatePost_Ok in HC. destruct HC as [_ ->]. reflexivity.
  - apply CreatePost_Err in HC. subst w1.
    simpl. destruct (negb (String.eqb e duplicate_url_message)); reflexivity.
Qed.

Lemma scrapeItems_returns_nil feedRow feed items :
  forall w, dates_parse (env w) items ->
  snd (scrapeItems feedRow feed items w) = None.
Proof.
  induction items as [|it items IH]; intros w H; [reflexivity|].
  inversion H as [|? ? [t Ht] Hrest]; subst.
  simpl. unfold bind.
  destruct (insertItem feedRow it t w) as [w1 r] eqn:HI.
  pose proof (scrapeItem_env feedRow feed it w) as HE.
  rewrite (scrapeItem_insert feedRow feed it t r w w1 Ht HI) in *. simpl in HE.
  apply IH. rewrite HE. exact Hrest.
Qed.

Lemma scrapeItem_posts_grow feedRow feed item (w : World) :
  exists l, posts (fst (scrapeItem feedRow feed item w)) = posts w ++ l.
Proof.
  unfold scrapeItem.
  destruct (time_Parse (env w) RFC1123Z (RSSItem.PubDate item)) as [t|e].
  - unfold bind. destruct (insertItem feedRow item t w) as [w1 [p|e]] eqn:HI.
    + apply insertItem_Ok_frame in HI. destruct HI as (_ & HP & _).
      exists [p]. simpl. exact HP.
    + apply insertItem_Err_frame in HI. destruct HI as (HP & _).
      exists []. rewrite app_nil_r.
      destruct (reported (Err e)); simpl; exact HP.
  - exists []. rewrite app_nil_r. reflexivity.
Qed.

Lemma scrapeItems_posts_grow feedRow feed items :
  forall w, exists l,
    posts (fst (scrapeItems feedRow feed items w)) = posts w ++ l.
Proof.
  induction items as [|it items IH]; intros w.
  - exists []. rewrite app_nil_r. reflexivity.
  - simpl. unfold bind.
    destruct (scrapeItem_posts_grow feedRow feed it w) as [l1 H1].
    destruct (scrapeItem feedRow feed it w) as [w1 [e|]]; simpl in H1.
    + exists l1. exact H1.
    + destruct (IH w1) as [l2 H2]. exists (l1 ++ l2).
      rewrite H2, H1, app_assoc. reflexivity.
Qed.

Lemma scrapeItems_env feedRow feed items :
  forall w, env (fst (scrapeItems feedRow feed items w)) = env w.
Proof.
  induction items as [|it items IH]; intros w; [reflexivity|].
  simpl. unfold bind.
  pose proof (scrapeItem_env feedRow feed it w) as HE.
  destruct (scrapeItem feedRow feed it w) as [w1 [e|]]; simpl in *.
  - exact HE.
  - rewrite IH. exact HE.
Qed.

(** ** The cycle, once a feed has been selected, marked and fetched *)

Lemma scrapeFeeds_ingest (w wa wb wc : World) feedRow feed :
  GetNextFeedToFetch w = (wa, (feedRow, None)) ->
  MarkFeedFetched (Feed.ID feedRow) wa = (wb, None) ->
  fetchFeed (Feed.Url feedRow) wb = (wc, Ok feed) ->
  scrapeFeeds w =
  scrapeItems feedRow feed (Channel.Item (RSSFeed.Channel feed)) wc.
Proof.
  intros HG HM HF. unfold scrapeFeeds, bind. rewrite HG, HM, HF. reflexivity.
Qed.

(** ** Duplicates, dates and store errors *)

(** C1. When the insert of an entry's Post is rejected for the
    uniqueness of the post's URL, the loop returns nothing for that
    entry and prints nothing, the [posts] table is what it was, and the
    result of the document is the result of the entries that remain. *)
Theorem duplicate_url_is_benign_skip
    feedRow feed pre item rest pubTime (w w1 w2 : World) :
  scrapeItems feedRow feed pre w = (w1, None) ->
  time_Parse (env w1) RFC1123Z (RSSItem.PubDate item) = Ok pubTime ->
  insertItem feedRow item pubTime w1 = (w2, Err posts_url_key) ->
  scrapeItem feedRow feed item w1 = (w2, None) /\
  posts w2 = posts w1 /\
  stdout w2 = stdout w1 /\
  scrapeItems feedRow feed (pre ++ item :: rest) w =
  scrapeItems feedRow feed rest w2.
Proof.
  intros Hpre Hdate Hins.
  assert (Hitem : scrapeItem feedRow feed item w1 = (w2, None)).
  { rewrite (scrapeItem_insert feedRow feed item pubTime _ w1 w2 Hdate Hins).
    rewrite posts_url_key_literal, reported_duplicate. reflexivity. }
  destruct (insertItem_Err_frame _ _ _ _ _ _ Hins) as (HP & _ & _ & HS & _).
  repeat split; try assumption.
  rewrite (scrapeItems_app feedRow feed pre (item :: rest) w w1 Hpre).
  apply scrapeItems_cons. exact Hitem.
Qed.

(** C2. When the date of an entry cannot be read in the layout
    [RFC1123Z], the cycle ends in the world the entries before it left
    (their rows stored, nothing of the later entries attempted) and
    returns to its caller an error that quotes the date and names the
    feed. *)
Theorem bad_date_aborts_document
    (w wa wb wc wd : World) feedRow feed pre bad rest err :
  GetNextFeedToFetch w = (wa, (feedRow, None)) ->
  MarkFeedFetched (Feed.ID feedRow) wa = (wb, None) ->
  fetchFeed (Feed.Url feedRow) wb = (wc, Ok feed) ->
  Channel.Item (RSSFeed.Channel feed) = pre ++ bad :: rest ->
  scrapeItems feedRow feed pre wc = (wd, None) ->
  time_Parse (env wd) RFC1123Z (RSSItem.PubDate bad) = Err err ->
  scrapeFeeds w =
  (wd, Some (cat ["Couldn't parse date '"; RSSItem.PubDate bad;
                  "' in feed '"; Channel.Title (RSSFeed.Channel feed);
                  "': "; err])).
Proof.
  intros HG HM HF Hitems Hpre Hdate.
  rewrite (scrapeFeeds_ingest w wa wb wc feedRow feed HG HM HF), Hitems.
  rewrite (scrapeItems_app feedRow feed pre (bad :: rest) wc wd Hpre).
  simpl. unfold bind.
  rewrite (scrapeItem_bad_date feedRow feed bad err wd Hdate). reflexivity.
Qed.

(** C3, as the code has it. When the insert of an entry's Post fails
    with an error whose text is not the duplicate-URL message, the loop
    prints that text on standard output and goes on with the next entry;
    the error is not returned (with every date readable the document
    returns [nil]), and the rows stored before stay in the table. *)
Theorem store_error_is_printed_not_returned
    feedRow feed pre item rest pubTime e (w w1 w2 : World) :
  scrapeItems feedRow feed pre w = (w1, None) ->
  time_Parse (env w1) RFC1123Z (RSSItem.PubDate item) = Ok pubTime ->
  insertItem feedRow item pubTime w1 = (w2, Err e) ->
  e <> duplicate_url_message ->
  let w3 := log (EvStdout e) w2 in
  let final := scrapeItems feedRow feed (pre ++ item :: rest) w in
  scrapeItem feedRow feed item w1 = (w3, None) /\
  stdout w3 = stdout w1 ++ [e] /\
  posts w3 = posts w1 /\
  final = scrapeItems feedRow feed rest w3 /\
  (exists later, posts (fst final) = posts w1 ++ later) /\
  (dates_parse (env w) (pre ++ item :: rest) -> snd final = None).
Proof.
  intros Hpre Hdate Hins Hne w3 final.
  assert (Hitem : scrapeItem feedRow feed item w1 = (w3, None)).
  { rewrite (scrapeItem_insert feedRow feed item pubTime _ w1 w2 Hdate Hins).
    rewrite (reported_other e Hne). reflexivity. }
  destruct (insertItem_Err_frame _ _ _ _ _ _ Hins) as (HP & _ & _ & HS & _).
  assert (Hfinal : final = scrapeItems feedRow feed rest w3).
  { unfold final.
    rewrite (scrapeItems_app feedRow feed pre (item :: rest) w w1 Hpre).
    apply scrapeItems_cons. exact Hitem. }
  repeat split.
  - exact Hitem.
  - unfold w3. rewrite stdout_log, HS. reflexivity.
  - exact HP.
  - exact Hfinal.
  - rewrite Hfinal.
    destruct (scrapeItems_posts_grow feedRow feed rest w3) as [l Hl].
    exists l. rewrite Hl. simpl. rewrite HP. reflexivity.
  - intros Hall. apply scrapeItems_returns_nil. exact Hall.
Qed.

(** C10. A failed insert is passed over in silence exactly when the
    text of its error is the duplicate-URL literal; an error with any
    other text is printed on standard output.  Either way the loop goes
    on with the next entry, and a document whose remaining dates are
    readable returns [nil]. *)
Theorem duplicate_is_recognised_by_message
    feedRow feed item pubTime e (w w1 : World) :
  time_Parse (env w) RFC1123Z (RSSItem.PubDate item) = Ok pubTime ->
  insertItem feedRow item pubTime w = (w1, Err e) ->
  exists w2,
    scrapeItem feedRow feed item w = (w2, None) /\
    (stdout w2 = stdout w <-> e = duplicate_url_message) /\
    (e <> duplicate_url_message -> stdout w2 = stdout w ++ [e]) /\
    posts w2 = posts w /\
    (forall rest,
        scrapeItems feedRow feed (item :: rest) w =
        scrapeItems feedRow feed rest w2) /\
    (forall rest, dates_parse (env w) rest ->
        snd (scrapeItems feedRow feed (item :: rest) w) = None).
Proof.
  intros Hdate Hins.
  pose proof (scrapeItem_insert feedRow feed item pubTime _ w w1 Hdate Hins)
    as Hitem.
  destruct (insertItem_Err_frame _ _ _ _ _ _ Hins) as (HP & _ & HE & HS & _).
  eexists. split; [exact Hitem|].
  assert (Hout : forall rest, dates_parse (env w) rest ->
             snd (scrapeItems feedRow feed (item :: rest) w) = None).
  { intros rest Hrest. apply scrapeItems_returns_nil.
    constructor; [exists pubTime; exact Hdate | exact Hrest]. }
  destruct (String.eqb_spec e duplicate_url_message) as [Heq|Hne].
  - subst e. rewrite reported_duplicate in *.
    split; [split; [reflexivity | intros _; exact HS]|].
    split; [intros Hne; elim Hne; reflexivity|].
    split; [exact HP|].
    split; [|exact Hout].
    intros rest. apply scrapeItems_cons. exact Hitem.
  - rewrite (reported_other e Hne) in *.
    assert (Hs : stdout (log (EvStdout e) w1) = stdout w ++ [e]).
    { rewrite stdout_log, HS. reflexivity. }
    split.
    { split; [|intros Heq; contradiction].
      intros Hsame. rewrite Hs in Hsame.
      apply (f_equal (@List.length string)) in Hsame.
      rewrite length_app in Hsame. simpl in Hsame. lia. }
    split; [intros _; exact Hs|].
    split; [exact HP|].
    split; [|exact Hout].
    intros rest. apply scrapeItems_cons. exact Hitem.
Qed.

(** The blog's second entry is already stored when its document
    arrives: it is skipped, the first and the last entry are handled as
    usual. *)
Lemma duplicate_url_is_benign_skip_witness :
  let old := Post.mk 1 5 5 "Second" "https://blog.example/2" "two" 1136275200 7 in
  let w := demoWorld [old] [blog] [] no_fault in
  let feed := doc [item1; item2; item3] in
  let w1 := fst (scrapeItems blog feed [item1] w) in
  let w2 := fst (insertItem blog item2 1136275200 w1) in
  scrapeItem blog feed item2 w1 = (w2, None) /\
  posts w2 = posts w1 /\
  stdout w2 = stdout w1 /\
  scrapeItems blog feed ([item1] ++ item2 :: [item3]) w =
  scrapeItems blog feed [item3] w2.
Proof.
  intros old w feed w1 w2.
  apply (duplicate_url_is_benign_skip blog feed [item1] item2 [item3]
           1136275200 w w1 w2); run.
Defined.

(** The third of four entries is dated [yesterday]: two rows are stored
    and the fourth entry is never looked at. *)
Lemma bad_date_aborts_document_witness :
  let w := demoWorld [] [blog; wire] [item1; item2; item_bad; item3] no_fault in
  let feed := unescapeFeed UnescapeString (doc [item1; item2; item_bad; item3]) in
  let wc := fst (fetchFeed (Feed.Url blog)
                   (fst (MarkFeedFetched 7 (fst (GetNextFeedToFetch w))))) in
  let wd := fst (scrapeItems blog feed
                   (map (unescapeItem UnescapeString) [item1; item2]) wc) in
  map Post.Url (posts wd) =
    ["https://blog.example/1?a=1&amp;b=2"; "https://blog.example/2"] /\
  scrapeFeeds w =
  (wd, Some (cat ["Couldn't parse date '"; "yesterday"; "' in feed '";
                  "News & more"; "': ";
                  cat ["parsing time "; dquote; "yesterday"; dquote; " as ";
                       dquote; RFC1123Z; dquote; ": cannot parse"]])).
Proof.
  intros w feed wc wd. split; [vm_compute; reflexivity|].
  apply (bad_date_aborts_document w (fst (GetNextFeedToFetch w))
           (fst (MarkFeedFetched 7 (fst (GetNextFeedToFetch w)))) wc wd
           blog feed (map (unescapeItem UnescapeString) [item1; item2])
           (unescapeItem UnescapeString item_bad)
           [unescapeItem UnescapeString item3]); run.
Defined.

(** The claim of C3 fails where the connection drops during the first
    insert: the insert fails with the driver's error, another text than
    the duplicate-URL message, and the cycle returns [nil]. *)
Lemma store_error_not_propagated_counterexample :
  let w := demoWorld [] [blog] [item1; item2]
             (fault_at 4 "driver: bad connection") in
  let post1 := Post.mk 1003 1700000002 1700000002 "A & B"
                 "https://blog.example/1?a=1&amp;b=2" "x < y" 1136239445 7 in
  In (EvCreatePost post1 (Some "driver: bad connection"))
    (trace (fst (scrapeFeeds w))) /\
  "driver: bad connection" <> duplicate_url_message /\
  snd (scrapeFeeds w) = None.
Proof.
  intros w post1. split; [|split].
  - vm_compute. right. right. right. left. reflexivity.
  - discriminate.
  - vm_compute. reflexivity.
Qed.

Lemma store_error_is_printed_not_returned_witness :
  let w := demoWorld [] [blog] [] (fault_at 5 "driver: bad connection") in
  let feed := doc [item1; item2; item3] in
  let e := "driver: bad connection" in
  let w1 := fst (scrapeItems blog feed [item1] w) in
  let w2 := fst (insertItem blog item2 1136275200 w1) in
  let w3 := log (EvStdout e) w2 in
  let final := scrapeItems blog feed ([item1] ++ item2 :: [item3]) w in
  scrapeItem blog feed item2 w1 = (w3, None) /\
  stdout w3 = stdout w1 ++ [e] /\
  posts w3 = posts w1 /\
  final = scrapeItems blog feed [item3] w3 /\
  (exists later, posts (fst final) = posts w1 ++ later) /\
  (dates_parse (env w) ([item1] ++ item2 :: [item3]) -> snd final = None).
Proof.
  intros w feed e w1 w2.
  apply (store_error_is_printed_not_returned blog feed [item1] item2 [item3]
           1136275200 e w w1 w2);
    try discriminate; run.
Defined.

(** An identity that is already taken is a uniqueness violation under
    another name ([posts_pkey]): it is printed. *)
Lemma duplicate_is_recognised_by_message_witness :
  let taken := Post.mk 1001 5 5 "Old" "https://blog.example/0" "zero" 0 7 in
  let w := demoWorld [taken] [blog] [] no_fault in
  let feed := doc [item1] in
  exists w2,
    scrapeItem blog feed item1 w = (w2, None) /\
    (stdout w2 = stdout w <-> posts_pkey = duplicate_url_message) /\
    (posts_pkey <> duplicate_url_message -> stdout w2 = stdout w ++ [posts_pkey]) /\
    posts w2 = posts w /\
    (forall rest,
        scrapeItems blog feed (item1 :: rest) w =
        scrapeItems blog feed rest w2) /\
    (forall rest, dates_parse (env w) rest ->
        snd (scrapeItems blog feed (item1 :: rest) w) = None).
Proof.
  intros taken w feed.
  apply (duplicate_is_recognised_by_message blog feed item1 1136239445
           posts_pkey w (fst (insertItem blog item1 1136239445 w))); run.
Defined.

(** ** What [fetchFeed] returns *)

Lemma fetchFeed_Ok url feed (w w1 : World) :
  fetchFeed url w = (w1, Ok feed) ->
  exists req resp body raw,
    http_NewRequest (env w) "GET" url = Ok req /\
    http_Do_at (env w) (nonce w) (Header_Set "User-Agent" "gator" req) = Ok resp /\
    Body resp = Ok body /\
    xml_Unmarshal (env w) body = Ok raw /\
    feed = unescapeFeed (html_UnescapeString (env w)) raw /\
    w1 = log (EvHTTP (Header_Set "User-Agent" "gator" req)) (bump w).
Proof.
  unfold fetchFeed, http_Do.
  destruct (http_NewRequest (env w) "GET" url) as [req|e] eqn:HR;
    [|intros H; inversion H].
  destruct (http_Do_at (env w) (nonce w) _) as [resp|e] eqn:HD;
    [|intros H; inversion H].
  destruct (Body resp) as [body|e] eqn:HB; [|intros H; inversion H].
  destruct (xml_Unmarshal (env w) body) as [raw|e] eqn:HX;
    intros H; inversion H; subst.
  exists req, resp, body, raw. repeat split; assumption.
Qed.

(** C6. In a document [fetchFeed] returns, the channel's title and
    description and every entry's title and description are
    [html.UnescapeString] applied once to the decoded text; the row an
    insert stores for the entry carries that title and description. *)
Theorem fetched_text_is_unescaped_once url feed (w w1 : World) :
  fetchFeed url w = (w1, Ok feed) ->
  let U := html_UnescapeString (env w) in
  exists body raw,
    xml_Unmarshal (env w) body = Ok raw /\
    Channel.Title (RSSFeed.Channel feed) =
      U (Channel.Title (RSSFeed.Channel raw)) /\
    Channel.Description (RSSFeed.Channel feed) =
      U (Channel.Description (RSSFeed.Channel raw)) /\
    length (Channel.Item (RSSFeed.Channel feed)) =
      length (Channel.Item (RSSFeed.Channel raw)) /\
    forall i r, nth_error (Channel.Item (RSSFeed.Channel raw)) i = Some r ->
      exists it,
        nth_error (Channel.Item (RSSFeed.Channel feed)) i = Some it /\
        RSSItem.Title it = U (RSSItem.Title r) /\
        RSSItem.Description it = U (RSSItem.Description r) /\
        forall feedRow pubTime w2 w3 p,
          insertItem feedRow it pubTime w2 = (w3, Ok p) ->
          Post.Title p = U (RSSItem.Title r) /\
          Post.Description p = U (RSSItem.Description r).
Proof.
  intros H U. apply fetchFeed_Ok in H.
  destruct H as (req & resp & body & raw & _ & _ & _ & HX & -> & _).
  exists body, raw. fold U. simpl.
  split; [exact HX|]. split; [reflexivity|]. split; [reflexivity|].
  split; [apply length_map|].
  intros i r Hi. exists (unescapeItem U r).
  split; [rewrite nth_error_map, Hi; reflexivity|].
  split; [reflexivity|]. split; [reflexivity|].
  intros feedRow pubTime w2 w3 p Hins.
  apply insertItem_Ok_frame in Hins. destruct Hins as (-> & _).
  split; reflexivity.
Qed.

(** The blog's first title arrives as [A &amp; B] and is stored as
    [A & B]. *)
Lemma fetched_text_is_unescaped_once_witness :
  let w := demoWorld [] [blog] [item1; item2] no_fault in
  let feed := unescapeFeed UnescapeString (doc [item1; item2]) in
  (let U := UnescapeString in
   exists body raw,
     Unmarshal_from [("<rss>blog</rss>", doc [item1; item2])] body = Ok raw /\
     Channel.Title (RSSFeed.Channel feed) =
       U (Channel.Title (RSSFeed.Channel raw)) /\
     Channel.Description (RSSFeed.Channel feed) =
       U (Channel.Description (RSSFeed.Channel raw)) /\
     length (Channel.Item (RSSFeed.Channel feed)) =
       length (Channel.Item (RSSFeed.Channel raw)) /\
     forall i r, nth_error (Channel.Item (RSSFeed.Channel raw)) i = Some r ->
       exists it,
         nth_error (Channel.Item (RSSFeed.Channel feed)) i = Some it /\
         RSSItem.Title it = U (RSSItem.Title r) /\
         RSSItem.Description it = U (RSSItem.Description r) /\
         forall feedRow pubTime w2 w3 p,
           insertItem feedRow it pubTime w2 = (w3, Ok p) ->
           Post.Title p = U (RSSItem.Title r) /\
           Post.Description p = U (RSSItem.Description r)) /\
  map RSSItem.Title (Channel.Item (RSSFeed.Channel feed)) = ["A & B"; "Second"] /\
  map Post.Title (posts (fst (scrapeFeeds w))) = ["A & B"; "Second"] /\
  map Post.Description (posts (fst (scrapeFeeds w))) = ["x < y"; "two"].
Proof.
  intros w feed. split; [|repeat split; vm_compute; reflexivity].
  apply (fetched_text_is_unescaped_once "https://blog.example/index.xml" feed
           w (fst (fetchFeed "https://blog.example/index.xml" w))).
  run.
Defined.

(** C9. Unescaping leaves the links alone: the channel's link and every
    entry's link (and date string) in the document [fetchFeed] returns
    are the decoded strings, and the row an insert stores has the
    entry's link as its URL. *)
Theorem links_are_stored_verbatim url feed (w w1 : World) :
  fetchFeed url w = (w1, Ok feed) ->
  exists body raw,
    xml_Unmarshal (env w) body = Ok raw /\
    Channel.Link (RSSFeed.Channel feed) = Channel.Link (RSSFeed.Channel raw) /\
    map RSSItem.Link (Channel.Item (RSSFeed.Channel feed)) =
      map RSSItem.Link (Channel.Item (RSSFeed.Channel raw)) /\
    map RSSItem.PubDate (Channel.Item (RSSFeed.Channel feed)) =
      map RSSItem.PubDate (Channel.Item (RSSFeed.Channel raw)) /\
    forall feedRow it pubTime w2 w3 p,
      insertItem feedRow it pubTime w2 = (w3, Ok p) ->
      Post.Url p = RSSItem.Link it /\ posts w3 = posts w2 ++ [p].
Proof.
  intros H. apply fetchFeed_Ok in H.
  destruct H as (req & resp & body & raw & _ & _ & _ & HX & -> & _).
  exists body, raw. simpl.
  split; [exact HX|]. split; [reflexivity|].
  split; [rewrite map_map; reflexivity|].
  split; [rewrite map_map; reflexivity|].
  intros feedRow it pubTime w2 w3 p Hins.
  apply insertItem_Ok_frame in Hins. destruct Hins as (-> & HP & _).
  split; [reflexivity | exact HP].
Qed.

(** The blog's links carry an [&amp;] that stays as it is. *)
Lemma links_are_stored_verbatim_witness :
  let w := demoWorld [] [blog] [item1; item2] no_fault in
  let feed := unescapeFeed UnescapeString (doc [item1; item2]) in
  (exists body raw,
     Unmarshal_from [("<rss>blog</rss>", doc [item1; item2])] body = Ok raw /\
     Channel.Link (RSSFeed.Channel feed) = Channel.Link (RSSFeed.Channel raw) /\
     map RSSItem.Link (Channel.Item (RSSFeed.Channel feed)) =
       map RSSItem.Link (Channel.Item (RSSFeed.Channel raw)) /\
     map RSSItem.PubDate (Channel.Item (RSSFeed.Channel feed)) =
       map RSSItem.PubDate (Channel.Item (RSSFeed.Channel raw)) /\
     forall feedRow it pubTime w2 w3 p,
       insertItem feedRow it pubTime w2 = (w3, Ok p) ->
       Post.Url p = RSSItem.Link it /\ posts w3 = posts w2 ++ [p]) /\
  Channel.Link (RSSFeed.Channel feed) = "https://blog.example/?x&amp;y" /\
  map Post.Url (posts (fst (scrapeFeeds w))) =
    ["https://blog.example/1?a=1&amp;b=2"; "https://blog.example/2"].
Proof.
  intros w feed. split; [|repeat split; vm_compute; reflexivity].
  apply (links_are_stored_verbatim "https://blog.example/index.xml" feed
           w (fst (fetchFeed "https://blog.example/index.xml" w))).
  run.
Defined.

(** ** Operations that leave the feeds and the ticker alone *)

Lemma ticks_of_app (l1 l2 : list Event) :
  ticks_of (l1 ++ l2) = (ticks_of l1 + ticks_of l2)%nat.
Proof.
  induction l1 as [|e tl IH]; simpl; [reflexivity|].
  destruct e; simpl; rewrite ?IH; reflexivity.
Qed.

Lemma quiet_refl (w : World) : quiet w w.
Proof.
  repeat split; auto. exists []. rewrite app_nil_r. split; reflexivity.
Qed.

Lemma quiet_trans (w1 w2 w3 : World) : quiet w1 w2 -> quiet w2 w3 -> quiet w1 w3.
Proof.
  intros (E1 & F1 & N1 & l1 & T1 & K1) (E2 & F2 & N2 & l2 & T2 & K2).
  repeat split; try congruence; try lia.
  exists (l1 ++ l2). rewrite T2, T1, app_assoc, ticks_of_app, K1, K2.
  split; reflexivity.
Qed.

Lemma quiet_log (e : Event) (w : World) : ticks_of [e] = O -> quiet w (log e w).
Proof. intros H. repeat split; auto. exists [e]. split; [reflexivity|exact H]. Qed.

Lemma quiet_bump (w : World) : quiet w (bump w).
Proof.
  repeat split; simpl; auto. exists []. rewrite app_nil_r. split; reflexivity.
Qed.

Lemma quiet_set_posts ps (w : World) : quiet w (set_posts ps w).
Proof.
  repeat split; simpl; auto. exists []. rewrite app_nil_r. split; reflexivity.
Qed.

Lemma CreatePost_quiet arg (w : World) : quiet w (fst (CreatePost arg w)).
Proof.
  destruct (CreatePost arg w) as [w1 [p|e]] eqn:H; simpl.
  - apply CreatePost_Ok in H. destruct H as [_ ->].
    eapply quiet_trans; [apply quiet_bump|].
    eapply quiet_trans; [apply quiet_set_posts|].
    apply quiet_log. reflexivity.
  - apply CreatePost_Err in H. subst w1.
    eapply quiet_trans; [apply quiet_bump|]. apply quiet_log. reflexivity.
Qed.

Lemma insertItem_quiet feedRow item pubTime (w : World) :
  quiet w (fst (insertItem feedRow item pubTime w)).
Proof.
  rewrite insertItem_unfold.
  eapply quiet_trans; [apply quiet_bump|].
  eapply quiet_trans; [apply quiet_bump|]. apply CreatePost_quiet.
Qed.

Lemma scrapeItem_quiet feedRow feed item (w : World) :
  quiet w (fst (scrapeItem feedRow feed item w)).
Proof.
  unfold scrapeItem.
  destruct (time_Parse (env w) RFC1123Z (RSSItem.PubDate item)) as [t|e];
    [|apply quiet_refl].
  unfold bind. pose proof (insertItem_quiet feedRow item t w) as HQ.
  destruct (insertItem feedRow item t w) as [w1 r]. simpl in HQ.
  destruct (reported r); simpl; [|exact HQ].
  eapply quiet_trans; [exact HQ|]. apply quiet_log. reflexivity.
Qed.

Lemma scrapeItems_quiet feedRow feed items :
  forall w, quiet w (fst (scrapeItems feedRow feed items w)).
Proof.
  induction items as [|it items IH]; intros w; [apply quiet_refl|].
  simpl. unfold bind.
  pose proof (scrapeItem_quiet feedRow feed it w) as HQ.
  destruct (scrapeItem feedRow feed it w) as [w1 [e|]]; simpl in *.
  - exact HQ.
  - eapply quiet_trans; [exact HQ|]. apply IH.
Qed.

Lemma fetchFeed_quiet url (w : World) : quiet w (fst (fetchFeed url w)).
Proof.
  unfold fetchFeed, http_Do.
  destruct (http_NewRequest (env w) "GET" url) as [req|e]; [|apply quiet_refl].
  assert (HQ : quiet w (log (EvHTTP (Header_Set "User-Agent" "gator" req))
                          (bump w))).
  { eapply quiet_trans; [apply quiet_bump|]. apply quiet_log. reflexivity. }
  destruct (http_Do_at (env w) (nonce w) _) as [resp|e]; [|exact HQ].
  destruct (Body resp) as [body|e]; [|exact HQ].
  destruct (xml_Unmarshal (env w) body) as [raw|e]; exact HQ.
Qed.

(** ** The cycle *)

Lemma next_feed_In (fs : list Feed.t) (f : Feed.t) :
  next_feed fs = Some f -> In f fs.
Proof.
  revert f. induction fs as [|g tl IH]; intros f; simpl; [discriminate|].
  destruct (next_feed tl) as [h|].
  - destruct (fetched_leb (Feed.LastFetchedAt g) (Feed.LastFetchedAt h));
      intros H; inversion H; subst; auto.
  - intros H; inversion H; auto.
Qed.

Lemma next_feed_None (fs : list Feed.t) : next_feed fs = None -> fs = [].
Proof.
  destruct fs as [|g tl]; simpl; [reflexivity|].
  destruct (next_feed tl) as [h|]; [|discriminate].
  destruct (fetched_leb _ _); discriminate.
Qed.

Lemma has_feed_id_In (f : Feed.t) (fs : list Feed.t) :
  In f fs -> has_feed_id (Feed.ID f) fs = true.
Proof.
  intros H. unfold has_feed_id. apply existsb_exists.
  exists f. split; [exact H | apply Z.eqb_refl].
Qed.

(** The world in which the fetch of a selected feed starts. *)
Lemma scrapeFeeds_selected (w : World) feedRow :
  next_feed (feeds w) = Some feedRow ->
  let now := now_at (env w) (nonce w) in
  let wb := log (EvMarkFeedFetched (Feed.ID feedRow) now)
              (set_feeds (map (mark_row (Feed.ID feedRow) now) (feeds w))
                 (bump (log EvGetNextFeedToFetch w))) in
  scrapeFeeds w =
  (let '(wc, r) := fetchFeed (Feed.Url feedRow) wb in
   match r with
   | Err err =>
       (wc, Some (cat ["Error fetching feed '"; Feed.Name feedRow;
                       "': "; err]))
   | Ok feed =>
       scrapeItems feedRow feed (Channel.Item (RSSFeed.Channel feed)) wc
   end).
Proof.
  intros H now wb.
  unfold scrapeFeeds, bind, GetNextFeedToFetch. rewrite H.
  unfold MarkFeedFetched. simpl.
  rewrite (has_feed_id_In feedRow (feeds w) (next_feed_In _ _ H)).
  fold now. fold wb.
  destruct (fetchFeed (Feed.Url feedRow) wb) as [wc [feed|e]]; reflexivity.
Qed.

Lemma scrapeFeeds_empty (w : World) :
  feeds w = [] ->
  scrapeFeeds w =
  (log EvGetNextFeedToFetch w,
   Some "Error getting feed '' from DB: sql: no rows in result set").
Proof.
  intros H. unfold scrapeFeeds, bind, GetNextFeedToFetch. rewrite H.
  reflexivity.
Qed.

(** What a cycle does to the environment, the counter and the feeds:
    the only write to [feeds] is the mark of the selected row. *)
Lemma scrapeFeeds_frame (w : World) :
  let w' := fst (scrapeFeeds w) in
  env w' = env w /\ (nonce w <= nonce w')%nat /\
  ticks_of (trace w') = ticks_of (trace w) /\
  (feeds w' = feeds w \/
   exists feedRow,
     next_feed (feeds w) = Some feedRow /\
     feeds w' = map (mark_row (Feed.ID feedRow) (now_at (env w) (nonce w)))
                  (feeds w)).
Proof.
  intros w'. unfold w'. clear w'.
  destruct (next_feed (feeds w)) as [feedRow|] eqn:HN.
  - pose proof (scrapeFeeds_selected w feedRow HN) as HS. cbv zeta in HS.
    set (now := now_at (env w) (nonce w)) in *.
    set (wb := log (EvMarkFeedFetched (Feed.ID feedRow) now) _) in HS.
    assert (HQ : quiet wb (fst (scrapeFeeds w))).
    { rewrite HS.
      pose proof (fetchFeed_quiet (Feed.Url feedRow) wb) as HF.
      destruct (fetchFeed (Feed.Url feedRow) wb) as [wc [feed|e]];
        simpl in HF; [|exact HF].
      eapply quiet_trans; [exact HF|]. apply scrapeItems_quiet. }
    destruct HQ as (HE & HF & HNn & l & HT & HK).
    rewrite HE, HF, HT.
    split; [reflexivity|]. split; [simpl in HNn; lia|].
    split.
    + simpl. rewrite !ticks_of_app, HK. simpl. lia.
    + right. exists feedRow. split; reflexivity.
  - rewrite (scrapeFeeds_empty w (next_feed_None _ HN)). simpl.
    rewrite ticks_of_app. simpl. repeat split; auto.
Qed.

Lemma agg_pass_unfold (w : World) :
  agg_pass w =
  (log EvTick
     (match snd (scrapeFeeds w) with
      | Some err => log (EvStderr (scrape_error_line err)) (fst (scrapeFeeds w))
      | None => fst (scrapeFeeds w)
      end), tt).
Proof.
  unfold agg_pass, bind.
  destruct (scrapeFeeds w) as [w1 [e|]]; reflexivity.
Qed.

Lemma agg_pass_ticks (w : World) :
  ticks_of (trace (fst (agg_pass w))) = S (ticks_of (trace w)).
Proof.
  rewrite agg_pass_unfold.
  destruct (scrapeFeeds_frame w) as (_ & _ & HT & _).
  destruct (snd (scrapeFeeds w)); simpl; rewrite !ticks_of_app, HT; simpl; lia.
Qed.

Lemma agg_loop_unfold (fuel : nat) (w : World) :
  agg_loop (S fuel) w = agg_loop fuel (fst (agg_pass w)).
Proof.
  simpl. unfold bind. destruct (agg_pass w) as [w1 []]. reflexivity.
Qed.

Lemma agg_loop_running (fuel : nat) :
  forall w,
    snd (agg_loop fuel w) = Running /\
    ticks_of (trace (fst (agg_loop fuel w))) = (ticks_of (trace w) + fuel)%nat.
Proof.
  induction fuel as [|n IH]; intros w.
  - simpl. split; [reflexivity | lia].
  - rewrite agg_loop_unfold. destruct (IH (fst (agg_pass w))) as [HR HT].
    split; [exact HR|]. rewrite HT, agg_pass_ticks. lia.
Qed.

(** C5. Once [handlerAgg] has read its interval, no number of cycles
    makes it return: after any number of passes it is still running and
    has waited for the ticker once per pass.  A pass is a cycle, the
    line on standard error when the cycle returned an error, then the
    wait for the next tick, whatever the cycle returned. *)
Theorem polling_loop_never_returns fuel cmd arg d (w : World) :
  args cmd = [arg] ->
  time_ParseDuration (env w) arg = Ok d ->
  0 < d ->
  snd (handlerAgg fuel cmd w) = Running /\
  ticks_of (trace (fst (handlerAgg fuel cmd w))) =
    (ticks_of (trace w) + fuel)%nat /\
  handlerAgg (S fuel) cmd w = agg_loop fuel (fst (agg_pass w)) /\
  forall w0,
    agg_pass w0 =
    (log EvTick
       (match snd (scrapeFeeds w0) with
        | Some err =>
            log (EvStderr (scrape_error_line err)) (fst (scrapeFeeds w0))
        | None => fst (scrapeFeeds w0)
        end), tt).
Proof.
  intros Hargs Hdur Hpos.
  assert (Hrun : forall n, handlerAgg n cmd w = agg_loop n w).
  { intros n. unfold handlerAgg. rewrite Hargs, Hdur.
    destruct (Z.leb_spec d 0); [lia | reflexivity]. }
  rewrite !Hrun. destruct (agg_loop_running fuel w) as [HR HT].
  repeat split; auto using agg_loop_unfold, agg_pass_unfold.
Qed.

(** Three passes over two feeds: the blog is stored, the wire fails to
    load and is reported, the blog is fetched again. *)
Lemma polling_loop_never_returns_witness :
  let w := demoWorld [] [blog; wire] [item1; item2] no_fault in
  let cmd := mkCommand "agg" ["1m"] in
  (snd (handlerAgg 3 cmd w) = Running /\
   ticks_of (trace (fst (handlerAgg 3 cmd w))) = (ticks_of (trace w) + 3)%nat /\
   handlerAgg 4 cmd w = agg_loop 3 (fst (agg_pass w)) /\
   forall w0,
     agg_pass w0 =
     (log EvTick
        (match snd (scrapeFeeds w0) with
         | Some err =>
             log (EvStderr (scrape_error_line err)) (fst (scrapeFeeds w0))
         | None => fst (scrapeFeeds w0)
         end), tt)) /\
  stderr (fst (handlerAgg 3 cmd w)) =
    [scrape_error_line "Error fetching feed 'wire': unexpected EOF"] /\
  length (posts (fst (handlerAgg 3 cmd w))) = 2%nat.
Proof.
  intros w cmd. split; [|split; vm_compute; reflexivity].
  apply (polling_loop_never_returns 3 cmd "1m" 60000000000 w);
    vm_compute; reflexivity.
Defined.

(** The claim of C7 fails on the empty store: the cycle returns an
    error, and the loop prints it. *)
Lemma empty_store_cycle_counterexample :
  let w := demoWorld [] [] [] no_fault in
  feeds w = [] /\
  snd (scrapeFeeds w) =
    Some "Error getting feed '' from DB: sql: no rows in result set" /\
  stderr (fst (agg_pass w)) =
    [scrape_error_line
       "Error getting feed '' from DB: sql: no rows in result set"].
Proof. repeat split; vm_compute; reflexivity. Qed.

(** C7, as the code has it. With no feed in the store the cycle marks
    nothing, fetches nothing and stores nothing, and it returns the
    error of the empty selection; the loop prints that error on
    standard error, waits for the next tick and goes on. *)
Theorem empty_store_cycle_reports_error (w : World) :
  feeds w = [] ->
  let err := "Error getting feed '' from DB: sql: no rows in result set" in
  let w' := fst (agg_pass w) in
  scrapeFeeds w = (log EvGetNextFeedToFetch w, Some err) /\
  posts w' = posts w /\
  feeds w' = feeds w /\
  trace w' =
    trace w ++ [EvGetNextFeedToFetch; EvStderr (scrape_error_line err); EvTick] /\
  forall fuel, agg_loop (S fuel) w = agg_loop fuel w'.
Proof.
  intros H err w'.
  assert (Hw' : w' = log EvTick (log (EvStderr (scrape_error_line err))
                                   (log EvGetNextFeedToFetch w))).
  { unfold w'. rewrite agg_pass_unfold, (scrapeFeeds_empty w H). reflexivity. }
  split; [apply scrapeFeeds_empty; exact H|].
  split; [rewrite Hw'; reflexivity|].
  split; [rewrite Hw'; reflexivity|].
  split.
  - rewrite Hw'. simpl. rewrite <- !app_assoc. reflexivity.
  - intros fuel. apply agg_loop_unfold.
Qed.

Lemma empty_store_cycle_reports_error_witness :
  let w := demoWorld [] [] [] no_fault in
  let err := "Error getting feed '' from DB: sql: no rows in result set" in
  let w' := fst (agg_pass w) in
  scrapeFeeds w = (log EvGetNextFeedToFetch w, Some err) /\
  posts w' = posts w /\
  feeds w' = feeds w /\
  trace w' =
    trace w ++ [EvGetNextFeedToFetch; EvStderr (scrape_error_line err); EvTick] /\
  forall fuel, agg_loop (S fuel) w = agg_loop fuel w'.
Proof.
  intros w err w'. apply (empty_store_cycle_reports_error w). reflexivity.
Defined.

(** ** The last-fetched timestamp *)

Lemma fetched_leb_refl (a : option Time) : fetched_leb a a = true.
Proof. destruct a; simpl; [apply Z.leb_refl | reflexivity]. Qed.

Lemma fetched_leb_trans (a b c : option Time) :
  fetched_leb a b = true -> fetched_leb b c = true -> fetched_leb a c = true.
Proof.
  destruct a, b, c; simpl; try discriminate; try reflexivity.
  rewrite !Z.leb_le. lia.
Qed.

Lemma feeds_advance_refl (fs : list Feed.t) : feeds_advance fs fs.
Proof.
  induction fs; constructor; auto using fetched_leb_refl.
Qed.

Lemma feeds_advance_trans (xs ys zs : list Feed.t) :
  feeds_advance xs ys -> feeds_advance ys zs -> feeds_advance xs zs.
Proof.
  intros H. revert zs.
  induction H as [|x y xs ys [Hid Hle] _ IH]; intros zs Hz;
    inversion Hz as [|? z ? zs' [Hid' Hle'] Hrest]; subst; constructor.
  - split; [congruence | eapply fetched_leb_trans; eassumption].
  - apply IH. exact Hrest.
Qed.

Lemma mark_advance (id : UUID) (now : Time) (fs : list Feed.t) :
  (forall f t, In f fs -> Feed.LastFetchedAt f = Some t -> t <= now) ->
  feeds_advance fs (map (mark_row id now) fs).
Proof.
  induction fs as [|f fs IH]; intros H; simpl; constructor.
  - unfold mark_row. destruct (Feed.ID f =? id); simpl.
    + split; [reflexivity|].
      destruct (Feed.LastFetchedAt f) as [t|] eqn:Ht; simpl; [|reflexivity].
      apply Z.leb_le. apply (H f t); [left; reflexivity | exact Ht].
    + split; [reflexivity | apply fetched_leb_refl].
  - apply IH. intros g t Hg. apply H. right. exact Hg.
Qed.

Lemma mark_row_selected (id : UUID) (now : Time) (fs : list Feed.t) (f : Feed.t) :
  In f (map (mark_row id now) fs) -> Feed.ID f = id ->
  Feed.LastFetchedAt f = Some now.
Proof.
  intros Hin Hid. apply in_map_iff in Hin. destruct Hin as (g & <- & _).
  unfold mark_row in *. destruct (Z.eqb_spec (Feed.ID g) id); simpl in *.
  - reflexivity.
  - contradiction.
Qed.

(** A cycle moves no timestamp back and leaves none in the future. *)
Lemma cycle_advance (w : World) :
  clock_monotone (env w) -> timestamps_past w ->
  let w' := fst (scrapeFeeds w) in
  feeds_advance (feeds w) (feeds w') /\ timestamps_past w'.
Proof.
  intros Hclock Hpast w'.
  destruct (scrapeFeeds_frame w) as (HE & HN & _ & HF). fold w' in HE, HN, HF.
  assert (Hnow : now_at (env w) (nonce w) <= now_at (env w) (nonce w'))
    by (apply Hclock; exact HN).
  destruct HF as [HF | (feedRow & _ & HF)].
  - rewrite HF. split; [apply feeds_advance_refl|].
    intros f t Hin Ht. rewrite HF in Hin. rewrite HE.
    specialize (Hpast f t Hin Ht). lia.
  - rewrite HF. split; [apply mark_advance; exact Hpast|].
    intros f t Hin Ht. rewrite HF in Hin. rewrite HE.
    apply in_map_iff in Hin. destruct Hin as (g & <- & Hg).
    unfold mark_row in Ht. destruct (Feed.ID g =? Feed.ID feedRow).
    + simpl in Ht. inversion Ht; subst. exact Hnow.
    + specialize (Hpast g t Hg Ht). lia.
Qed.

Lemma loop_advance (cycles : nat) :
  forall w, clock_monotone (env w) -> timestamps_past w ->
  feeds_advance (feeds w) (feeds (fst (agg_loop cycles w))).
Proof.
  induction cycles as [|n IH]; intros w Hclock Hpast.
  - apply feeds_advance_refl.
  - rewrite agg_loop_unfold.
    destruct (cycle_advance w Hclock Hpast) as [Hadv Hpast'].
    destruct (scrapeFeeds_frame w) as (HE & _ & _ & _).
    assert (Hsame : feeds (fst (agg_pass w)) = feeds (fst (scrapeFeeds w)) /\
                    env (fst (agg_pass w)) = env (fst (scrapeFeeds w)) /\
                    nonce (fst (agg_pass w)) = nonce (fst (scrapeFeeds w))).
    { rewrite agg_pass_unfold. destruct (snd (scrapeFeeds w)); repeat split. }
    destruct Hsame as (HF & HE' & HN').
    eapply feeds_advance_trans; [|apply IH].
    + rewrite HF. exact Hadv.
    + rewrite HE', HE. exact Hclock.
    + intros f t. rewrite HF, HE', HN'. apply Hpast'.
Qed.

(** C4. In a cycle that selects a feed, [fetchFeed] starts in a world
    in which the selected row already carries the clock's reading as
    its last-fetched timestamp; whatever the fetch and the ingestion do
    afterwards, the feeds the cycle leaves are those.  With a clock that
    never runs backwards and no timestamp in the future at the start, no
    feed's timestamp has moved back after any number of cycles. *)
Theorem feed_is_marked_before_fetch (w : World) feedRow :
  next_feed (feeds w) = Some feedRow ->
  let now := now_at (env w) (nonce w) in
  let wb := log (EvMarkFeedFetched (Feed.ID feedRow) now)
              (set_feeds (map (mark_row (Feed.ID feedRow) now) (feeds w))
                 (bump (log EvGetNextFeedToFetch w))) in
  let w' := fst (scrapeFeeds w) in
  scrapeFeeds w =
    (let '(wc, r) := fetchFeed (Feed.Url feedRow) wb in
     match r with
     | Err err =>
         (wc, Some (cat ["Error fetching feed '"; Feed.Name feedRow;
                         "': "; err]))
     | Ok feed =>
         scrapeItems feedRow feed (Channel.Item (RSSFeed.Channel feed)) wc
     end) /\
  (exists later,
      trace w' = trace w ++ EvGetNextFeedToFetch
                   :: EvMarkFeedFetched (Feed.ID feedRow) now :: later) /\
  feeds w' = feeds wb /\
  (forall f, In f (feeds w') -> Feed.ID f = Feed.ID feedRow ->
             Feed.LastFetchedAt f = Some now) /\
  (clock_monotone (env w) -> timestamps_past w ->
   forall cycles, feeds_advance (feeds w) (feeds (fst (agg_loop cycles w)))).
Proof.
  intros HN now wb w'.
  pose proof (scrapeFeeds_selected w feedRow HN) as HS. cbv zeta in HS.
  fold now in HS. fold wb in HS.
  assert (HQ : quiet wb w').
  { unfold w'. rewrite HS.
    pose proof (fetchFeed_quiet (Feed.Url feedRow) wb) as HF.
    destruct (fetchFeed (Feed.Url feedRow) wb) as [wc [feed|e]];
      simpl in HF; [|exact HF].
    eapply quiet_trans; [exact HF|]. apply scrapeItems_quiet. }
  destruct HQ as (_ & HF & _ & l & HT & _).
  split; [exact HS|]. split; [|split; [exact HF|split]].
  - exists l. rewrite HT. unfold wb. simpl. rewrite <- !app_assoc. reflexivity.
  - intros f Hin Hid. rewrite HF in Hin.
    apply (mark_row_selected (Feed.ID feedRow) now (feeds w) f Hin Hid).
  - intros Hclock Hpast cycles. apply loop_advance; assumption.
Qed.

Lemma demoEnv_clock_monotone sites docs faults :
  clock_monotone (demoEnv sites docs faults).
Proof.
  intros i j Hij. unfold demoEnv. cbn [now_at]. lia.
Qed.

(** Two feeds: the blog, never fetched, is selected and marked; the
    wire, whose fetch fails, is marked in the next cycle all the same. *)
Lemma feed_is_marked_before_fetch_witness :
  let w := demoWorld [] [blog; wire] [item1; item2] no_fault in
  let now := 1700000000 in
  let w' := fst (scrapeFeeds w) in
  next_feed (feeds w) = Some blog /\
  (exists later,
      trace w' = trace w ++ EvGetNextFeedToFetch
                   :: EvMarkFeedFetched 7 now :: later) /\
  (forall f, In f (feeds w') -> Feed.ID f = 7 ->
             Feed.LastFetchedAt f = Some now) /\
  (forall cycles, feeds_advance (feeds w) (feeds (fst (agg_loop cycles w)))) /\
  map Feed.LastFetchedAt (feeds (fst (agg_loop 2 w))) =
    [Some 1700000000; Some 1700000008] /\
  stderr (fst (agg_loop 2 w)) =
    [scrape_error_line "Error fetching feed 'wire': unexpected EOF"].
Proof.
  intros w now w'.
  assert (HN : next_feed (feeds w) = Some blog) by reflexivity.
  destruct (feed_is_marked_before_fetch w blog HN) as (_ & HT & _ & HM & HA).
  split; [exact HN|]. split; [exact HT|]. split; [exact HM|].
  split; [|split; vm_compute; reflexivity].
  apply HA.
  - apply demoEnv_clock_monotone.
  - intros f t [<-|[<-|[]]] Ht; inversion Ht.
    apply Z.leb_le. vm_compute. reflexivity.
Defined.

(** ** Ingesting a document twice *)

Lemma has_post_url_app url (ps qs : list Post.t) :
  has_post_url url (ps ++ qs) = has_post_url url ps || has_post_url url qs.
Proof. apply existsb_app. Qed.

Lemma has_post_id_app id (ps qs : list Post.t) :
  has_post_id id (ps ++ qs) = has_post_id id ps || has_post_id id qs.
Proof. apply existsb_app. Qed.

(** An entry whose link is stored: the insert is rejected for the
    URL. *)
Lemma insertItem_duplicate feedRow item pubTime (w : World) :
  fault_free w ->
  (forall n, (nonce w <= n)%nat ->
     has_post_id (uuid_at (env w) n) (posts w) = false) ->
  has_post_url (RSSItem.Link item) (posts w) = true ->
  insertItem feedRow item pubTime w =
  (log (EvCreatePost
          (postParams feedRow item pubTime (now_at (env w) (nonce w))
             (uuid_at (env w) (S (nonce w))))
          (Some posts_url_key))
     (bump (bump (bump w))),
   Err posts_url_key).
Proof.
  intros Hff Hfresh Hurl. rewrite insertItem_unfold. unfold CreatePost. simpl.
  rewrite (Hff (S (S (nonce w)))) by lia.
  rewrite (Hfresh (S (nonce w))) by lia.
  rewrite Hurl. reflexivity.
Qed.

(** An entry handled by a store that answers, with a fresh identity and
    an existing feed: afterwards its link is stored, one way or the
    other, and nothing was printed. *)
Lemma scrapeItem_stores feedRow feed item pubTime (w : World) :
  time_Parse (env w) RFC1123Z (RSSItem.PubDate item) = Ok pubTime ->
  fault_free w -> ids_fresh w ->
  has_feed_id (Feed.ID feedRow) (feeds w) = true ->
  exists w1,
    scrapeItem feedRow feed item w = (w1, None) /\
    fault_free w1 /\ ids_fresh w1 /\
    has_feed_id (Feed.ID feedRow) (feeds w1) = true /\
    has_post_url (RSSItem.Link item) (posts w1) = true.
Proof.
  intros Hdate Hff [Hfresh Hinj] Hfeed.
  destruct (has_post_url (RSSItem.Link item) (posts w)) eqn:Hurl.
  - pose proof (insertItem_duplicate feedRow item pubTime w Hff Hfresh Hurl)
      as Hins.
    eexists. split.
    { rewrite (scrapeItem_insert feedRow feed item pubTime _ w _ Hdate Hins).
      rewrite posts_url_key_literal, reported_duplicate. reflexivity. }
    unfold fault_free, ids_fresh.
    cbn [posts feeds env nonce log bump set_posts].
    repeat split; auto.
    + intros n Hn. apply Hff. lia.
    + intros n Hn. apply Hfresh. lia.
    + intros m n Hm Hmn. apply Hinj; lia.
  - set (arg := postParams feedRow item pubTime (now_at (env w) (nonce w))
                  (uuid_at (env w) (S (nonce w)))).
    assert (Hins : insertItem feedRow item pubTime w =
                   (log (EvCreatePost arg None)
                      (set_posts (posts w ++ [arg]) (bump (bump (bump w)))),
                    Ok arg)).
    { rewrite insertItem_unfold. unfold CreatePost. simpl.
      rewrite (Hff (S (S (nonce w)))) by lia.
      rewrite (Hfresh (S (nonce w))) by lia.
      rewrite Hurl, Hfeed. reflexivity. }
    eexists. split.
    { rewrite (scrapeItem_insert feedRow feed item pubTime _ w _ Hdate Hins).
      reflexivity. }
    unfold fault_free, ids_fresh.
    cbn [reported posts feeds env nonce log bump set_posts].
    repeat split; auto.
    + intros n Hn. apply Hff. lia.
    + intros n Hn. rewrite has_post_id_app.
      rewrite (Hfresh n) by lia. simpl.
      rewrite orb_false_r. apply Z.eqb_neq.
      apply Hinj; lia.
    + intros m n Hm Hmn. apply Hinj; lia.
    + rewrite has_post_url_app. simpl. rewrite String.eqb_refl.
      apply orb_true_iff. right. reflexivity.
Qed.

Lemma first_run_stores feedRow feed items :
  forall w,
    dates_parse (env w) items -> fault_free w -> ids_fresh w ->
    has_feed_id (Feed.ID feedRow) (feeds w) = true ->
    exists w1,
      scrapeItems feedRow feed items w = (w1, None) /\
      fault_free w1 /\ ids_fresh w1 /\
      Forall (fun it => has_post_url (RSSItem.Link it) (posts w1) = true) items.
Proof.
  induction items as [|it items IH]; intros w Hdates Hff Hfresh Hfeed.
  - exists w. split; [reflexivity|]. split; [exact Hff|].
    split; [exact Hfresh | constructor].
  - inversion Hdates as [|? ? [t Ht] Hrest]; subst.
    destruct (scrapeItem_stores feedRow feed it t w Ht Hff Hfresh Hfeed)
      as (w' & Hitem & Hff' & Hfresh' & Hfeed' & Hurl).
    assert (HE : env w' = env w).
    { pose proof (scrapeItem_env feedRow feed it w) as H.
      rewrite Hitem in H. exact H. }
    rewrite <- HE in Hrest.
    destruct (IH w' Hrest Hff' Hfresh' Hfeed') as (w1 & Hrun & Hff1 & Hfr1 & Hall).
    exists w1. rewrite (scrapeItems_cons feedRow feed it items w w' Hitem).
    split; [exact Hrun|]. split; [exact Hff1|]. split; [exact Hfr1|].
    constructor; [|exact Hall].
    destruct (scrapeItems_posts_grow feedRow feed items w') as [l Hl].
    rewrite Hrun in Hl. simpl in Hl.
    rewrite Hl, has_post_url_app, Hurl. reflexivity.
Qed.

Lemma rerun_skips feedRow feed items :
  forall w,
    dates_parse (env w) items -> fault_free w ->
    (forall n, (nonce w <= n)%nat ->
       has_post_id (uuid_at (env w) n) (posts w) = false) ->
    Forall (fun it => has_post_url (RSSItem.Link it) (posts w) = true) items ->
    exists w2 attempts,
      scrapeItems feedRow feed items w = (w2, None) /\
      posts w2 = posts w /\
      stdout w2 = stdout w /\
      trace w2 = trace w ++ attempts /\
      length attempts = length items /\
      Forall (fun e => exists arg,
                  e = EvCreatePost arg (Some duplicate_url_message)) attempts.
Proof.
  induction items as [|it items IH]; intros w Hdates Hff Hfresh Hall.
  - exists w, []. rewrite app_nil_r. repeat split; auto.
  - inversion Hdates as [|? ? [t Ht] Hrest]; subst.
    inversion Hall as [|? ? Hurl Hall']; subst.
    pose proof (insertItem_duplicate feedRow it t w Hff Hfresh Hurl) as Hins.
    set (arg := postParams feedRow it t (now_at (env w) (nonce w))
                  (uuid_at (env w) (S (nonce w)))) in *.
    set (w' := log (EvCreatePost arg (Some posts_url_key))
                 (bump (bump (bump w)))) in *.
    assert (Hitem : scrapeItem feedRow feed it w = (w', None)).
    { rewrite (scrapeItem_insert feedRow feed it t _ w w' Ht Hins).
      rewrite posts_url_key_literal, reported_duplicate. reflexivity. }
    destruct (IH w') as (w2 & l & Hrun & HP & HS & HT & HL & HF).
    + exact Hrest.
    + intros n Hn. apply Hff. simpl in Hn. lia.
    + intros n Hn. apply Hfresh. simpl in Hn. lia.
    + exact Hall'.
    + exists w2, (EvCreatePost arg (Some posts_url_key) :: l).
      rewrite (scrapeItems_cons feedRow feed it items w w' Hitem).
      split; [exact Hrun|]. split; [rewrite HP; reflexivity|].
      split.
      { rewrite HS. unfold w'. rewrite stdout_log. apply app_nil_r. }
      split.
      { rewrite HT. unfold w'. simpl. rewrite <- app_assoc. reflexivity. }
      split; [simpl; rewrite HL; reflexivity|].
      constructor; [exists arg; reflexivity | exact HF].
Qed.

(** C8. A document whose dates are all readable is ingested for a feed
    by a store that answers: the first run returns [nil] and leaves
    every entry's link stored; a second run of the same document for
    the same feed then leaves [posts] as it is, prints nothing, and its
    attempts, one per entry, are all rejected as duplicates. *)
Theorem ingestion_is_idempotent feedRow feed items r1 (w w1 : World) :
  dates_parse (env w) items ->
  fault_free w ->
  ids_fresh w ->
  has_feed_id (Feed.ID feedRow) (feeds w) = true ->
  scrapeItems feedRow feed items w = (w1, r1) ->
  r1 = None /\
  Forall (fun it => has_post_url (RSSItem.Link it) (posts w1) = true) items /\
  exists w2 attempts,
    scrapeItems feedRow feed items w1 = (w2, None) /\
    posts w2 = posts w1 /\
    stdout w2 = stdout w1 /\
    trace w2 = trace w1 ++ attempts /\
    length attempts = length items /\
    Forall (fun e => exists arg,
                e = EvCreatePost arg (Some duplicate_url_message)) attempts.
Proof.
  intros Hdates Hff Hfresh Hfeed Hrun.
  destruct (first_run_stores feedRow feed items w Hdates Hff Hfresh Hfeed)
    as (w1' & Hrun' & Hff1 & [Hfr1 _] & Hall).
  rewrite Hrun in Hrun'. inversion Hrun'; subst w1' r1.
  split; [reflexivity|]. split; [exact Hall|].
  apply rerun_skips; auto.
  pose proof (scrapeItems_env feedRow feed items w) as HE.
  rewrite Hrun in HE. simpl in HE. rewrite HE. exact Hdates.
Qed.

Lemma demoWorld_ids_fresh fs items faults :
  ids_fresh (demoWorld [] fs items faults).
Proof.
  split.
  - intros n _. reflexivity.
  - intros m n _ Hmn. unfold demoWorld, demoEnv. cbn [env uuid_at]. lia.
Qed.

(** The blog's three entries, ingested twice into an empty table: three
    rows after the first run, the same three after the second. *)
Lemma ingestion_is_idempotent_witness :
  let w := demoWorld [] [blog] [] no_fault in
  let feed := doc [item1; item2; item3] in
  let items := [item1; item2; item3] in
  let w1 := fst (scrapeItems blog feed items w) in
  (exists w2 attempts,
      scrapeItems blog feed items w1 = (w2, None) /\
      posts w2 = posts w1 /\
      stdout w2 = stdout w1 /\
      trace w2 = trace w1 ++ attempts /\
      length attempts = length items /\
      Forall (fun e => exists arg,
                  e = EvCreatePost arg (Some duplicate_url_message)) attempts) /\
  length (posts w1) = 3%nat /\
  length (posts (fst (scrapeItems blog feed items w1))) = 3%nat.
Proof.
  intros w feed items w1. split; [|split; vm_compute; reflexivity].
  apply (ingestion_is_idempotent blog feed items None w w1).
  - repeat (constructor; [eexists; reflexivity|]). constructor.
  - intros n _. reflexivity.
  - apply demoWorld_ids_fresh.
  - reflexivity.
  - run.
Defined.

(** * Further properties of the polling engine *)

(** ** What an insert does to the table *)

Lemma has_post_url_false url (ps : list Post.t) :
  has_post_url url ps = false -> ~ In url (map Post.Url ps).
Proof.
  induction ps as [|p ps IH]; simpl; [auto|].
  intros H. apply orb_false_iff in H. destruct H as [Hp Hps].
  intros [Heq|Hin].
  - rewrite Heq, String.eqb_refl in Hp. discriminate.
  - exact (IH Hps Hin).
Qed.

Lemma has_post_id_false id (ps : list Post.t) :
  has_post_id id ps = false -> ~ In id (map Post.ID ps).
Proof.
  induction ps as [|p ps IH]; simpl; [auto|].
  intros H. apply orb_false_iff in H. destruct H as [Hp Hps].
  intros [Heq|Hin].
  - rewrite Heq, Z.eqb_refl in Hp. discriminate.
  - exact (IH Hps Hin).
Qed.

Lemma CreatePost_posts arg (w : World) :
  posts (fst (CreatePost arg w)) = posts w \/
  (posts (fst (CreatePost arg w)) = posts w ++ [arg] /\
   has_post_id (Post.ID arg) (posts w) = false /\
   has_post_url (Post.Url arg) (posts w) = false /\
   has_feed_id (Post.FeedID arg) (feeds w) = true).
Proof.
  unfold CreatePost.
  destruct (db_fault_at (env w) (nonce w)); [left; reflexivity|].
  destruct (has_post_id (Post.ID arg) (posts w)) eqn:Hid; [left; reflexivity|].
  destruct (has_post_url (Post.Url arg) (posts w)) eqn:Hurl;
    [left; reflexivity|].
  destruct (has_feed_id (Post.FeedID arg) (feeds w)) eqn:Hfeed; simpl.
  - right. repeat split.
  - left. reflexivity.
Qed.

(** What one entry does to the table: nothing, or one row built from
    the entry, whose identity and URL were not in the table. *)
Lemma scrapeItem_posts feedRow feed item (w : World) :
  let w' := fst (scrapeItem feedRow feed item w) in
  posts w' = posts w \/
  exists pubTime timeNow id,
    time_Parse (env w) RFC1123Z (RSSItem.PubDate item) = Ok pubTime /\
    posts w' = posts w ++ [postParams feedRow item pubTime timeNow id] /\
    has_post_id id (posts w) = false /\
    has_post_url (RSSItem.Link item) (posts w) = false /\
    has_feed_id (Feed.ID feedRow) (feeds w) = true.
Proof.
  unfold scrapeItem.
  destruct (time_Parse (env w) RFC1123Z (RSSItem.PubDate item)) as [t|e] eqn:HP;
    [|left; reflexivity].
  unfold bind. rewrite insertItem_unfold.
  set (arg := postParams feedRow item t _ _).
  pose proof (CreatePost_posts arg (bump (bump w))) as HC.
  destruct (CreatePost arg (bump (bump w))) as [w1 r]. simpl in HC.
  cbv zeta.
  destruct (reported r); simpl;
    (destruct HC as [HC|(HC & Hid & Hurl & Hfeed)]; [left; exact HC|];
     right;
     exists t, (now_at (env w) (nonce w)), (uuid_at (env w) (S (nonce w)));
     repeat split; assumption).
Qed.

Lemma fetchFeed_posts url (w : World) :
  posts (fst (fetchFeed url w)) = posts w.
Proof.
  unfold fetchFeed, http_Do.
  destruct (http_NewRequest (env w) "GET" url) as [req|e]; [|reflexivity].
  destruct (http_Do_at (env w) (nonce w) _) as [resp|e]; [|reflexivity].
  destruct (Body resp) as [body|e]; [|reflexivity].
  destruct (xml_Unmarshal (env w) body) as [raw|e]; reflexivity.
Qed.

(** A cycle is the loop over some document, run on the table the cycle
    found, or it leaves the table alone. *)
Lemma scrapeFeeds_posts (w : World) :
  posts (fst (scrapeFeeds w)) = posts w \/
  exists feedRow feed items w0,
    posts w0 = posts w /\ env w0 = env w /\
    fst (scrapeFeeds w) = fst (scrapeItems feedRow feed items w0).
Proof.
  destruct (next_feed (feeds w)) as [feedRow|] eqn:HN.
  - pose proof (scrapeFeeds_selected w feedRow HN) as HS. cbv zeta in HS.
    set (wb := log _ _) in HS.
    pose proof (fetchFeed_posts (Feed.Url feedRow) wb) as HP.
    pose proof (fetchFeed_quiet (Feed.Url feedRow) wb) as (HE & _).
    destruct (fetchFeed (Feed.Url feedRow) wb) as [wc [feed|e]];
      simpl in HP, HE; rewrite HS.
    + right. exists feedRow, feed, (Channel.Item (RSSFeed.Channel feed)), wc.
      split; [exact HP|]. split; [exact HE | reflexivity].
    + left. exact HP.
  - rewrite (scrapeFeeds_empty w (next_feed_None _ HN)). left. reflexivity.
Qed.

Lemma agg_pass_posts (w : World) :
  posts (fst (agg_pass w)) = posts (fst (scrapeFeeds w)).
Proof.
  rewrite agg_pass_unfold. destruct (snd (scrapeFeeds w)); reflexivity.
Qed.

(** ** Invariants of the table *)

Section TableInvariant.

Variable I : list Post.t -> Prop.

Hypothesis I_insert :
  forall ps p,
    I ps -> has_post_id (Post.ID p) ps = false ->
    has_post_url (Post.Url p) ps = false -> I (ps ++ [p]).

Lemma scrapeItems_keeps feedRow feed items :
  forall w, I (posts w) -> I (posts (fst (scrapeItems feedRow feed items w))).
Proof.
  induction items as [|it items IH]; intros w HI; [exact HI|].
  simpl. unfold bind.
  pose proof (scrapeItem_posts feedRow feed it w) as HS. cbv zeta in HS.
  destruct (scrapeItem feedRow feed it w) as [w1 r]. simpl in HS.
  assert (HI1 : I (posts w1)).
  { destruct HS as [->|(t & n & id & _ & -> & Hid & Hurl & _)]; [exact HI|].
    apply I_insert; assumption. }
  destruct r as [e|]; [exact HI1 | apply IH; exact HI1].
Qed.

Lemma scrapeFeeds_keeps (w : World) :
  I (posts w) -> I (posts (fst (scrapeFeeds w))).
Proof.
  intros HI.
  destruct (scrapeFeeds_posts w) as [->|(feedRow & feed & items & w0 & HP & _ & ->)];
    [exact HI|].
  apply scrapeItems_keeps. rewrite HP. exact HI.
Qed.

Lemma agg_loop_keeps (fuel : nat) :
  forall w, I (posts w) -> I (posts (fst (agg_loop fuel w))).
Proof.
  induction fuel as [|n IH]; intros w HI; [exact HI|].
  rewrite agg_loop_unfold. apply IH. rewrite agg_pass_posts.
  apply scrapeFeeds_keeps. exact HI.
Qed.

End TableInvariant.

Lemma NoDup_snoc {A : Type} (l : list A) (x : A) :
  NoDup l -> ~ In x l -> NoDup (l ++ [x]).
Proof.
  induction l as [|y l IH]; intros Hl Hx; simpl.
  - constructor; [intros [] | constructor].
  - inversion Hl as [|? ? Hy Hl']; subst. constructor.
    + intros Hin. apply in_app_or in Hin. destruct Hin as [Hin|[Heq|[]]].
      * exact (Hy Hin).
      * apply Hx. left. symmetry. exact Heq.
    + apply IH; [exact Hl'|]. intros Hin. apply Hx. right. exact Hin.
Qed.

(** X1. The polling loop keeps the keys of [posts] unique: if no two
    rows share a URL and no two share an identity, the same holds after
    any number of cycles, whatever the feeds serve. *)
Theorem polling_keeps_post_keys_unique (fuel : nat) (w : World) :
  NoDup (map Post.Url (posts w)) ->
  NoDup (map Post.ID (posts w)) ->
  NoDup (map Post.Url (posts (fst (agg_loop fuel w)))) /\
  NoDup (map Post.ID (posts (fst (agg_loop fuel w)))).
Proof.
  intros Hurl Hid.
  apply (agg_loop_keeps
           (fun ps => NoDup (map Post.Url ps) /\ NoDup (map Post.ID ps)));
    [|split; assumption].
  intros ps p [HU HI] Hpid Hpurl. rewrite !map_app. simpl.
  split; apply NoDup_snoc; auto using has_post_url_false, has_post_id_false.
Qed.

Lemma polling_keeps_post_keys_unique_witness :
  let w := demoWorld [] [blog; wire] [item1; item2] no_fault in
  (NoDup (map Post.Url (posts (fst (agg_loop 3 w)))) /\
   NoDup (map Post.ID (posts (fst (agg_loop 3 w))))) /\
  map Post.Url (posts (fst (agg_loop 3 w))) =
    ["https://blog.example/1?a=1&amp;b=2"; "https://blog.example/2"].
Proof.
  intros w. split; [|vm_compute; reflexivity].
  apply (polling_keeps_post_keys_unique 3 w); constructor.
Defined.

(** X2. The polling loop only ever appends to [posts]: after any number
    of cycles the rows that were stored are still there, unchanged and
    in their place, followed by the new ones. *)
Theorem polling_only_appends_posts (fuel : nat) (w : World) :
  exists new, posts (fst (agg_loop fuel w)) = posts w ++ new.
Proof.
  apply (agg_loop_keeps (fun ps => exists new, ps = posts w ++ new)).
  - intros ps p [new ->] _ _. exists (new ++ [p]). symmetry. apply app_assoc.
  - exists []. symmetry. apply app_nil_r.
Qed.

(** X3. Every row the loop over a document stores is built from one of
    its entries: title, link and description are the entry's, the
    publication time is the entry's date read in the layout, the feed is
    the selected one, and the two bookkeeping times are equal.  At most
    one row is stored per entry. *)
Theorem stored_rows_come_from_entries feedRow feed items :
  forall w, exists new,
    posts (fst (scrapeItems feedRow feed items w)) = posts w ++ new /\
    (length new <= length items)%nat /\
    Forall (fun p => exists item,
                In item items /\
                time_Parse (env w) RFC1123Z (RSSItem.PubDate item) =
                  Ok (Post.PublishedAt p) /\
                Post.Title p = RSSItem.Title item /\
                Post.Url p = RSSItem.Link item /\
                Post.Description p = RSSItem.Description item /\
                Post.FeedID p = Feed.ID feedRow /\
                Post.CreatedAt p = Post.UpdatedAt p) new.
Proof.
  induction items as [|it items IH]; intros w.
  - exists []. simpl. rewrite app_nil_r. repeat split; auto.
  - simpl. unfold bind.
    pose proof (scrapeItem_posts feedRow feed it w) as HS. cbv zeta in HS.
    pose proof (scrapeItem_env feedRow feed it w) as HE.
    destruct (scrapeItem feedRow feed it w) as [w1 r]. simpl in HS, HE.
    assert (Hfirst : exists new1,
               posts w1 = posts w ++ new1 /\ (length new1 <= 1)%nat /\
               Forall (fun p =>
                  time_Parse (env w) RFC1123Z (RSSItem.PubDate it) =
                    Ok (Post.PublishedAt p) /\
                  Post.Title p = RSSItem.Title it /\
                  Post.Url p = RSSItem.Link it /\
                  Post.Description p = RSSItem.Description it /\
                  Post.FeedID p = Feed.ID feedRow /\
                  Post.CreatedAt p = Post.UpdatedAt p) new1).
    { destruct HS as [->|(t & n & id & Ht & -> & _)].
      - exists []. rewrite app_nil_r. repeat split; auto.
      - eexists. split; [reflexivity|]. split; [simpl; lia|].
        constructor; [|constructor]. simpl. repeat split. exact Ht. }
    destruct Hfirst as (new1 & HP1 & HL1 & HF1).
    assert (Hmine : Forall (fun p => exists item,
                In item (it :: items) /\
                time_Parse (env w) RFC1123Z (RSSItem.PubDate item) =
                  Ok (Post.PublishedAt p) /\
                Post.Title p = RSSItem.Title item /\
                Post.Url p = RSSItem.Link item /\
                Post.Description p = RSSItem.Description item /\
                Post.FeedID p = Feed.ID feedRow /\
                Post.CreatedAt p = Post.UpdatedAt p) new1).
    { eapply Forall_impl; [|exact HF1]. intros p Hp. exists it.
      split; [left; reflexivity | exact Hp]. }
    destruct r as [e|].
    + exists new1. simpl. split; [exact HP1|]. split; [lia | exact Hmine].
    + destruct (IH w1) as (new2 & HP2 & HL2 & HF2).
      exists (new1 ++ new2). rewrite HP2, HP1, app_assoc.
      split; [reflexivity|]. split; [rewrite length_app; simpl; lia|].
      apply Forall_app. split; [exact Hmine|].
      eapply Forall_impl; [|exact HF2].
      intros p (item & Hin & Hrest). exists item.
      split; [right; exact Hin|]. rewrite <- HE. exact Hrest.
Qed.

(** X4. [fetchFeed] touches neither table and sends at most one
    request, which carries the header [User-Agent: gator]; when it
    returns an error it returns no document, and when the request could
    not be built nothing is sent. *)
Theorem fetchFeed_sends_one_request url (w : World) :
  let w' := fst (fetchFeed url w) in
  posts w' = posts w /\ feeds w' = feeds w /\
  (trace w' = trace w \/
   exists req,
     trace w' = trace w ++ [EvHTTP req] /\
     assoc "User-Agent" (Header req) = Some "gator") /\
  (forall e, http_NewRequest (env w) "GET" url = Err e ->
             fetchFeed url w = (w, Err e)).
Proof.
  cbv zeta. split; [apply fetchFeed_posts|].
  split; [apply (fetchFeed_quiet url w)|].
  split.
  - unfold fetchFeed, http_Do.
    destruct (http_NewRequest (env w) "GET" url) as [req|e];
      [|left; reflexivity].
    right. exists (Header_Set "User-Agent" "gator" req).
    split; [|reflexivity].
    destruct (http_Do_at (env w) (nonce w) _) as [resp|e]; [|reflexivity].
    destruct (Body resp) as [body|e]; [|reflexivity].
    destruct (xml_Unmarshal (env w) body) as [raw|e]; reflexivity.
  - intros e He. unfold fetchFeed. rewrite He. reflexivity.
Qed.

(** X5. [handlerAgg] never returns [nil].  It returns only before the
    first cycle, with an error about its argument and the world as it
    was; it panics, also before the first cycle, on an interval that is
    not positive; with a positive interval it runs on. *)
Theorem handlerAgg_stops_only_on_its_argument fuel cmd (w : World) :
  match snd (handlerAgg fuel cmd w) with
  | Returned err =>
      fst (handlerAgg fuel cmd w) = w /\ err <> None /\
      ((forall arg, args cmd <> [arg]) \/
       exists arg e,
         args cmd = [arg] /\ time_ParseDuration (env w) arg = Err e)
  | Panicked _ =>
      fst (handlerAgg fuel cmd w) = w /\
      exists arg d,
        args cmd = [arg] /\ time_ParseDuration (env w) arg = Ok d /\ d <= 0
  | Running =>
      exists arg d,
        args cmd = [arg] /\ time_ParseDuration (env w) arg = Ok d /\ 0 < d
  end.
Proof.
  unfold handlerAgg.
  destruct (args cmd) as [|arg [|arg2 rest]].
  - simpl. split; [reflexivity|]. split; [discriminate|].
    left. intros a. discriminate.
  - destruct (time_ParseDuration (env w) arg) as [d|e] eqn:HD.
    + destruct (Z.leb_spec d 0).
      * simpl. split; [reflexivity|]. exists arg, d. repeat split; auto.
      * destruct (agg_loop_running fuel w) as [-> _].
        exists arg, d. repeat split; auto.
    + simpl. split; [reflexivity|]. split; [discriminate|].
      right. exists arg, e. split; auto.
  - simpl. split; [reflexivity|]. split; [discriminate|].
    left. intros a. discriminate.
Qed.

(** * Properties of the configuration file and the commands *)

(** ** Package config *)

Lemma getConfigFilePath_unfold (s : state) :
  getConfigFilePath s =
  (s, match os_UserConfigDir (answers s) with
      | Err err => Err (cat ["Error getting user config directory: "; err])
      | Ok dir => Ok (filepath_Join (answers s) dir configFilename)
      end).
Proof.
  unfold getConfigFilePath. destruct (os_UserConfigDir (answers s)); reflexivity.
Qed.

(** What [writeConfig] leaves behind: it returns before any write, or
    records one write of the encoded configuration to the configuration
    file. *)
Lemma writeConfig_cases (c : Config) (s : state) :
  (exists e, writeConfig c s = (s, Some e)) \/
  exists dir data,
    os_UserConfigDir (answers s) = Ok dir /\
    json_Marshal (answers s) c = Ok data /\
    let path := filepath_Join (answers s) dir configFilename in
    ((exists e after,
         os_WriteFile_at (answers s) (length (calls s)) path = Some (e, after) /\
         writeConfig c s =
         (add_call (CallWriteFile path data)
            match after with
            | Some r => file_becomes path r s
            | None => s
            end,
          Some (cat ["Error writing config file; write failed: "; e]))) \/
     (os_WriteFile_at (answers s) (length (calls s)) path = None /\
      writeConfig c s =
      (add_call (CallWriteFile path data) (file_becomes path (Ok data) s),
       None))).
Proof.
  unfold writeConfig, bindP. rewrite getConfigFilePath_unfold.
  destruct (os_UserConfigDir (answers s)) as [dir|e]; [|left; eexists; reflexivity].
  destruct (json_Marshal (answers s) c) as [data|e] eqn:HM;
    [|left; eexists; reflexivity].
  right. exists dir, data. split; [reflexivity|]. split; [reflexivity|].
  cbv zeta. unfold os_WriteFile, retP.
  destruct (os_WriteFile_at (answers s) (length (calls s)) _) as [[e after]|].
  - left. exists e, after. split; reflexivity.
  - right. split; reflexivity.
Qed.

Lemma writeConfig_ok (c : Config) dir data (s : state) :
  let path := filepath_Join (answers s) dir configFilename in
  os_UserConfigDir (answers s) = Ok dir ->
  json_Marshal (answers s) c = Ok data ->
  os_WriteFile_at (answers s) (length (calls s)) path = None ->
  writeConfig c s =
  (add_call (CallWriteFile path data) (file_becomes path (Ok data) s), None).
Proof.
  intros path Hdir Hm Hw. unfold writeConfig, bindP.
  rewrite getConfigFilePath_unfold, Hdir, Hm.
  unfold os_WriteFile, retP. fold path. rewrite Hw. reflexivity.
Qed.

Lemma config_Read_ok (c : Config) dir data (s : state) :
  os_UserConfigDir (answers s) = Ok dir ->
  files s (filepath_Join (answers s) dir configFilename) = Ok data ->
  json_Unmarshal (answers s) data = Ok c ->
  config_Read s = (s, (c, None)).
Proof.
  intros Hdir Hf Hu. unfold config_Read, bindP.
  rewrite getConfigFilePath_unfold, Hdir, Hf, Hu. reflexivity.
Qed.

(** X6. Writing the user and reading the file back: when the directory
    is known, the write succeeds and the decoder inverts the encoder on
    the new configuration, [SetUser] returns [nil], and [Read] then
    returns the configuration with the new user and the old database
    URL. *)
Theorem config_SetUser_then_Read username dir data (s : state) :
  let c := mkConfig (DbURL (config s)) username in
  let path := filepath_Join (answers s) dir configFilename in
  os_UserConfigDir (answers s) = Ok dir ->
  json_Marshal (answers s) c = Ok data ->
  json_Unmarshal (answers s) data = Ok c ->
  os_WriteFile_at (answers s) (length (calls s)) path = None ->
  exists s1,
    config_SetUser username s = (s1, None) /\
    config s1 = c /\
    files s1 path = Ok data /\
    config_Read s1 = (s1, (c, None)).
Proof.
  intros c path Hdir Hm Hu Hw.
  assert (Hrun : config_SetUser username s =
                 (add_call (CallWriteFile path data)
                    (file_becomes path (Ok data) (set_config c s)),
                  None)).
  { unfold config_SetUser. fold c.
    exact (writeConfig_ok c dir data (set_config c s) Hdir Hm Hw). }
  set (s1 := add_call (CallWriteFile path data) _) in Hrun.
  exists s1. split; [exact Hrun|]. split; [reflexivity|].
  assert (Hfile : (if String.eqb path path then Ok data else files s path)
                  = Ok data) by (rewrite String.eqb_refl; reflexivity).
  split; [exact Hfile|].
  exact (config_Read_ok c dir data s1 Hdir Hfile Hu).
Qed.

Lemma config_SetUser_then_Read_witness :
  let s := demoState cfg0 [alice; bob] [] (fun _ _ => None) in
  let c := mkConfig "postgres://localhost/gator" "alice" in
  let path := "/home/alice/.config/gatorconfig.json" in
  exists s1,
    config_SetUser "alice" s = (s1, None) /\
    config s1 = c /\
    files s1 path =
      Ok (cat ["{"; dquote; "db_url"; dquote; ":"; dquote;
               "postgres://localhost/gator"; dquote; ","; dquote;
               "current_user_name"; dquote; ":"; dquote; "alice"; dquote;
               "}"]) /\
    config_Read s1 = (s1, (c, None)).
Proof.
  intros s c path.
  apply (config_SetUser_then_Read "alice" "/home/alice/.config" _ s);
    vm_compute; reflexivity.
Defined.

(** X7. [SetUser] always leaves the new user name in the configuration
    in memory, with the database URL kept, also when it returns an
    error; it changes no file when it returns without having attempted
    the write, and never a file other than the configuration file. *)
Theorem config_SetUser_frame username (s : state) :
  let s1 := fst (config_SetUser username s) in
  config s1 = mkConfig (DbURL (config s)) username /\
  db s1 = db s /\
  (calls s1 = calls s -> files s1 = files s) /\
  (forall p,
      (forall dir, os_UserConfigDir (answers s) = Ok dir ->
                   p <> filepath_Join (answers s) dir configFilename) ->
      files s1 p = files s p).
Proof.
  cbv zeta. unfold config_SetUser.
  set (c := mkConfig (DbURL (config s)) username).
  assert (Hgrow : forall x : Call, calls s <> calls s ++ [x]).
  { intros x H. apply (f_equal (@length Call)) in H.
    rewrite length_app in H. simpl in H. lia. }
  assert (Hother : forall dir r p,
             os_UserConfigDir (answers s) = Ok dir ->
             (forall dir, os_UserConfigDir (answers s) = Ok dir ->
                          p <> filepath_Join (answers s) dir configFilename) ->
             (if String.eqb p (filepath_Join (answers s) dir configFilename)
              then r else files s p) = files s p).
  { intros dir r p Hdir Hp. specialize (Hp dir Hdir).
    destruct (String.eqb_spec p (filepath_Join (answers s) dir configFilename));
      [contradiction | reflexivity]. }
  destruct (writeConfig_cases c (set_config c s))
    as [[e ->]|(dir & data & Hdir & _ & Hcase)].
  - simpl. repeat split; auto.
  - cbv zeta in Hcase. simpl in Hcase, Hdir.
    destruct Hcase as [(e & after & _ & ->)|[_ ->]].
    + destruct after as [r|]; simpl.
      * split; [reflexivity|]. split; [reflexivity|].
        split; [intros H; symmetry in H; elim (Hgrow _ H)|].
        intros p Hp. apply (Hother dir r p Hdir Hp).
      * split; [reflexivity|]. split; [reflexivity|].
        split; [intros _; reflexivity | intros p _; reflexivity].
    + simpl. split; [reflexivity|]. split; [reflexivity|].
      split; [intros H; symmetry in H; elim (Hgrow _ H)|].
      intros p Hp. apply (Hother dir (Ok data) p Hdir Hp).
Qed.

Lemma config_SetUser_nil username (s s1 : state) :
  config_SetUser username s = (s1, None) ->
  let c := mkConfig (DbURL (config s)) username in
  exists dir data,
    os_UserConfigDir (answers s) = Ok dir /\
    json_Marshal (answers s) c = Ok data /\
    s1 = add_call (CallWriteFile (filepath_Join (answers s) dir configFilename)
                     data)
           (file_becomes (filepath_Join (answers s) dir configFilename)
              (Ok data) (set_config c s)).
Proof.
  intros H c. unfold config_SetUser in H. fold c in H.
  destruct (writeConfig_cases c (set_config c s))
    as [[e He]|(dir & data & Hdir & Hm & Hcase)].
  - rewrite He in H. inversion H.
  - exists dir, data. split; [exact Hdir|]. split; [exact Hm|].
    cbv zeta in Hcase.
    destruct Hcase as [(e & after & _ & He)|[_ He]]; rewrite He in H;
      inversion H.
    reflexivity.
Qed.

(** ** The handlers without a logged-in user *)

Lemma stdout_Out line (s : state) :
  stdout (db (fst (Out line s))) = stdout (db s) ++ [line].
Proof. unfold Out, liftW, Println. simpl. apply stdout_log. Qed.

Lemma handlerLogin_one u cmd (s : state) :
  args cmd = [u] ->
  handlerLogin cmd s =
  (let s0 := add_call (CallGetUser u) s in
   match GetUser_at (answers s) (length (calls s)) u with
   | Err err =>
       (s0, Returned (Some (cat ["Could not login user "; u; ": "; err])))
   | Ok _ =>
       match config_SetUser u s0 with
       | (s1, Some err) =>
           (s1, Returned (Some (cat ["Error logging in: "; err])))
       | (s1, None) =>
           (fst (Out (cat ["user set to: '"; u; "'"]) s1), Returned None)
       end
   end).
Proof.
  intros H. unfold handlerLogin. rewrite H. unfold bindP, ask, fails, retP.
  destruct (GetUser_at (answers s) (length (calls s)) u); [|reflexivity].
  cbv zeta. destruct (config_SetUser u (add_call (CallGetUser u) s)) as [s1 [e|]];
    reflexivity.
Qed.

(** X8. [handlerLogin] returns [nil] only for a single name the store
    knows, and then the configuration in memory and the configuration
    file both carry that name and one line is printed; when the store
    does not know the name (or the argument count is wrong) it returns
    an error and configuration, files and output are as they were. *)
Theorem handlerLogin_outcome cmd (s : state) :
  let s1 := fst (handlerLogin cmd s) in
  let r := snd (handlerLogin cmd s) in
  (r = Returned None ->
   exists u user dir data,
     args cmd = [u] /\
     GetUser_at (answers s) (length (calls s)) u = Ok user /\
     config s1 = mkConfig (DbURL (config s)) u /\
     os_UserConfigDir (answers s) = Ok dir /\
     json_Marshal (answers s) (config s1) = Ok data /\
     files s1 (filepath_Join (answers s) dir configFilename) = Ok data /\
     stdout (db s1) = stdout (db s) ++ [cat ["user set to: '"; u; "'"]]) /\
  ((forall u user, args cmd = [u] ->
      GetUser_at (answers s) (length (calls s)) u <> Ok user) ->
   (exists e, r = Returned (Some e)) /\
   config s1 = config s /\ files s1 = files s /\ db s1 = db s).
Proof.
  cbv zeta.
  destruct (args cmd) as [|u [|u2 rest]] eqn:Hargs.
  - unfold handlerLogin. rewrite Hargs. simpl.
    split; [discriminate|]. intros _. split; [eexists; reflexivity|auto].
  - rewrite (handlerLogin_one u cmd s Hargs). cbv zeta.
    destruct (GetUser_at (answers s) (length (calls s)) u) as [user|e] eqn:HG.
    + split.
      * destruct (config_SetUser u (add_call (CallGetUser u) s))
          as [s1 [e|]] eqn:HS; cbn [fst snd]; [discriminate|]. intros _.
        apply config_SetUser_nil in HS. cbv zeta in HS.
        destruct HS as (dir & data & Hdir & Hm & ->).
        exists u, user, dir, data.
        rewrite stdout_Out. simpl in *.
        repeat split; auto. rewrite String.eqb_refl. reflexivity.
      * intros Hno. elim (Hno u user eq_refl). exact HG.
    + simpl. split; [discriminate|]. intros _.
      split; [eexists; reflexivity | auto].
  - unfold handlerLogin. rewrite Hargs. simpl.
    split; [discriminate|]. intros _. split; [eexists; reflexivity|auto].
Qed.

Lemma handlerRegister_one u cmd (s : state) :
  args cmd = [u] ->
  handlerRegister cmd s =
  (let w := db s in
   let arg := User.mk (uuid_at (env w) (S (nonce w)))
                (now_at (env w) (nonce w)) (now_at (env w) (nonce w)) u in
   let s0 := add_call (CallCreateUser arg) (set_db (bump (bump w)) s) in
   match CreateUser_at (answers s) (length (calls s)) arg with
   | Err err => (s0, Returned (Some (cat ["Could not create user: "; err])))
   | Ok userRet =>
       match config_SetUser u s0 with
       | (s1, Some err) =>
           (s1, Returned (Some (cat ["Error logging in with newly created user: ";
                                     err])))
       | (s1, None) =>
           (fst (Out (Sprint_User (answers s1) userRet)
                   (fst (Out "user created and logged in" s1))),
            Returned None)
       end
   end).
Proof.
  intros H. unfold handlerRegister. rewrite H.
  unfold bindP, ask, fails, retP, liftW, time_Now, uuid_New, set_db, add_call,
    bump.
  cbn [db config files calls answers fst snd posts feeds trace nonce env].
  destruct (CreateUser_at (answers s) (length (calls s)) _); [|reflexivity].
  match goal with
  | |- context [config_SetUser u ?s0] =>
      destruct (config_SetUser u s0) as [s1 [e|]]; reflexivity
  end.
Qed.

(** X9. [handlerRegister] asks the store for one new user, named by its
    argument, with equal creation and update times.  When it returns
    [nil] the configuration in memory and the configuration file carry
    the new name; when the store refuses the user, configuration and
    files are as they were and an error is returned. *)
Theorem handlerRegister_outcome u cmd (s : state) :
  args cmd = [u] ->
  let s1 := fst (handlerRegister cmd s) in
  let r := snd (handlerRegister cmd s) in
  let arg := User.mk (uuid_at (env (db s)) (S (nonce (db s))))
               (now_at (env (db s)) (nonce (db s)))
               (now_at (env (db s)) (nonce (db s))) u in
  (exists later, calls s1 = calls s ++ CallCreateUser arg :: later) /\
  (r = Returned None ->
   exists dir data,
     config s1 = mkConfig (DbURL (config s)) u /\
     os_UserConfigDir (answers s) = Ok dir /\
     json_Marshal (answers s) (config s1) = Ok data /\
     files s1 (filepath_Join (answers s) dir configFilename) = Ok data) /\
  (forall e, CreateUser_at (answers s) (length (calls s)) arg = Err e ->
     r = Returned (Some (cat ["Could not create user: "; e])) /\
     config s1 = config s /\ files s1 = files s /\
     calls s1 = calls s ++ [CallCreateUser arg]).
Proof.
  intros Hargs. cbv zeta. rewrite (handlerRegister_one u cmd s Hargs).
  cbv zeta.
  set (arg := User.mk _ _ _ u).
  set (s0 := add_call (CallCreateUser arg) _).
  destruct (CreateUser_at (answers s) (length (calls s)) arg) as [userRet|e].
  - destruct (config_SetUser u s0) as [s1 [e|]] eqn:HS.
    + split; [|split; [discriminate | intros e' He'; discriminate]].
      pose proof (writeConfig_cases (mkConfig (DbURL (config s0)) u)
                    (set_config (mkConfig (DbURL (config s0)) u) s0)) as HW.
      unfold config_SetUser in HS.
      destruct HW as [[e' He']|(dir & data & _ & _ & Hcase)].
      * rewrite He' in HS. inversion HS. exists []. reflexivity.
      * cbv zeta in Hcase.
        destruct Hcase as [(e' & after & _ & He')|[_ He']]; rewrite He' in HS;
          inversion HS.
        eexists. destruct after; simpl; rewrite <- app_assoc; reflexivity.
    + apply config_SetUser_nil in HS. cbv zeta in HS.
      destruct HS as (dir & data & Hdir & Hm & ->).
      split; [eexists; simpl; rewrite <- app_assoc; reflexivity|].
      split; [|intros e' He'; discriminate].
      intros _. exists dir, data. simpl in *.
      repeat split; auto. rewrite String.eqb_refl. reflexivity.
  - split; [exists []; reflexivity|]. split; [discriminate|].
    intros e' He'. inversion He'; subst. repeat split.
Qed.

Lemma handlerRegister_outcome_witness :
  let s := demoState cfg0 [alice; bob] [] (fun _ _ => None) in
  let cmd := mkCommand "register" ["carol"] in
  let s1 := fst (handlerRegister cmd s) in
  let r := snd (handlerRegister cmd s) in
  let arg := User.mk 1001 1700000000 1700000000 "carol" in
  ((exists later, calls s1 = calls s ++ CallCreateUser arg :: later) /\
   (r = Returned None ->
    exists dir data,
      config s1 = mkConfig (DbURL (config s)) "carol" /\
      os_UserConfigDir (answers s) = Ok dir /\
      json_Marshal (answers s) (config s1) = Ok data /\
      files s1 (filepath_Join (answers s) dir configFilename) = Ok data) /\
   (forall e, CreateUser_at (answers s) (length (calls s)) arg = Err e ->
      r = Returned (Some (cat ["Could not create user: "; e])) /\
      config s1 = config s /\ files s1 = files s /\
      calls s1 = calls s ++ [CallCreateUser arg])) /\
  r = Returned None /\
  stdout (db s1) = ["user created and logged in"; "carol"].
Proof.
  intros s cmd s1 r arg. split; [|split; vm_compute; reflexivity].
  apply (handlerRegister_outcome "carol" cmd s). reflexivity.
Defined.

(** ** The registry *)

Lemma run_handler (c : commands) (cmd : command) handler (s : state) :
  assoc (name cmd) (handlers c) = Some handler ->
  run c cmd s = handler cmd s.
Proof.
  intros H. unfold run. rewrite H. unfold bindP, retP.
  destruct (handler cmd s) as [s1 [[e|]| |]]; reflexivity.
Qed.

(** X10. A registered handler is the one [run] calls for its name, and
    [run] returns exactly what the handler returns; registering under
    one name changes nothing for the other names, and a later
    registration under the same name replaces the earlier one. *)
Theorem register_then_run (c : commands) nm f (cmd : command) (s : state) :
  let c' := fst (register nm f c) in
  snd (register nm f c) = None /\
  (name cmd = nm -> run c' cmd s = f cmd s) /\
  (name cmd <> nm -> run c' cmd s = run c cmd s) /\
  (forall g, name cmd = nm ->
             run (fst (register nm g c')) cmd s = g cmd s).
Proof.
  cbv zeta. split; [reflexivity|]. split; [|split].
  - intros H. apply run_handler. simpl. rewrite H, String.eqb_refl. reflexivity.
  - intros H. unfold run. simpl.
    destruct (String.eqb_spec nm (name cmd)) as [Heq|_];
      [elim H; symmetry; exact Heq | reflexivity].
  - intros g H. apply run_handler. simpl. rewrite H, String.eqb_refl.
    reflexivity.
Qed.

Lemma commandRegistry_handlers (fuel : nat) :
  handlers (commandRegistry fuel) = rev (registrations fuel).
Proof. reflexivity. Qed.

(** X11. A name that [init] did not register is refused by [run] with
    [No such command], and nothing is touched. *)
Theorem unknown_command_is_refused fuel nm argv (s : state) :
  ~ In nm (map fst (registrations fuel)) ->
  run (commandRegistry fuel) (mkCommand nm argv) s =
  (s, Returned (Some (cat ["No such command: "; nm]))).
Proof.
  intros Hnm. unfold run. rewrite commandRegistry_handlers.
  unfold registrations in *. cbn [rev app assoc name].
  cbn [map fst] in Hnm.
  repeat match goal with
  | |- context [String.eqb ?k nm] =>
      destruct (String.eqb_spec k nm) as [Heq|_];
      [elim Hnm; rewrite <- Heq; simpl; tauto|]
  end.
  reflexivity.
Qed.

Lemma unknown_command_is_refused_witness :
  let s := demoState cfg0 [alice; bob] [] (fun _ _ => None) in
  run (commandRegistry 1) (mkCommand "help" []) s =
  (s, Returned (Some "No such command: help")).
Proof.
  intros s. apply (unknown_command_is_refused 1 "help" [] s).
  unfold registrations. cbn [map fst].
  intros H. repeat (destruct H as [H|H]; [discriminate H|]). exact H.
Defined.

Lemma set_db_same (s : state) : set_db (db s) s = s.
Proof. destruct s. reflexivity. Qed.

(** X12. The commands registered without the login wrapper check the
    number of their arguments before anything else: called through the
    registry with a wrong number, each returns an error and nothing has
    been asked, written or printed. *)
Theorem unwrapped_commands_check_arguments_first fuel nm k argv (s : state) :
  In (nm, k) [("login", 1); ("register", 1); ("reset", 0); ("users", 0);
              ("agg", 1); ("feeds", 0)]%nat ->
  length argv <> k ->
  exists e,
    run (commandRegistry fuel) (mkCommand nm argv) s = (s, Returned (Some e)).
Proof.
  intros Hin Hlen. simpl in Hin.
  destruct Hin as [H|[H|[H|[H|[H|[H|[]]]]]]]; inversion H; subst nm k;
    (rewrite (run_handler _ _ _ s) by reflexivity);
    destruct argv as [|a [|b rest]]; try (elim Hlen; reflexivity);
    try (eexists; reflexivity).
  - eexists. unfold handlerAggP, liftW, handlerAgg. simpl.
    rewrite set_db_same. reflexivity.
  - eexists. unfold handlerAggP, liftW, handlerAgg. simpl.
    rewrite set_db_same. reflexivity.
Qed.

Lemma unwrapped_commands_check_arguments_first_witness :
  let s := demoState cfg0 [alice; bob] [] (fun _ _ => None) in
  exists e,
    run (commandRegistry 1) (mkCommand "users" ["alice"]) s =
    (s, Returned (Some e)).
Proof.
  intros s.
  apply (unwrapped_commands_check_arguments_first 1 "users" 0 ["alice"] s).
  - simpl. tauto.
  - discriminate.
Defined.

(** X13. The five commands registered with the login wrapper look the
    current user up before they look at their arguments.  When the
    lookup fails the handler is not run: the lookup is the only call and
    its error is returned; when it succeeds and the number of arguments
    is wrong, the lookup is still the only call and an error is
    returned. *)
Theorem wrapped_commands_look_up_user_first fuel nm k argv (s : state) :
  In (nm, k) [("addfeed", 2); ("follow", 1); ("following", 0);
              ("unfollow", 1); ("browse", 0); ("browse", 1)]%nat ->
  let current := CurrentUserName (config s) in
  let s0 := add_call (CallGetUser current) s in
  let answer := GetUser_at (answers s) (length (calls s)) current in
  (forall e, answer = Err e ->
     run (commandRegistry fuel) (mkCommand nm argv) s =
     (s0, Returned (Some (cat ["Error looking up currently logged in user ";
                               current; ": "; e])))) /\
  (forall user, answer = Ok user ->
     (nm = "browse" -> (2 <= length argv)%nat) ->
     (nm <> "browse" -> length argv <> k) ->
     exists e,
       run (commandRegistry fuel) (mkCommand nm argv) s =
       (s0, Returned (Some e))).
Proof.
  intros Hin current s0 answer. simpl in Hin.
  assert (Hmw : forall handler,
             assoc nm (handlers (commandRegistry fuel)) =
               Some (middlewareLoggedIn handler) ->
             run (commandRegistry fuel) (mkCommand nm argv) s =
             match answer with
             | Err err =>
                 (s0, Returned (Some (cat ["Error looking up currently logged in user ";
                                           current; ": "; err])))
             | Ok user => handler (mkCommand nm argv) user s0
             end).
  { intros handler H.
    rewrite (run_handler (commandRegistry fuel) (mkCommand nm argv) _ s H).
    unfold middlewareLoggedIn, bindP, ask, fails, retP.
    fold current. fold answer. fold s0. destruct answer; reflexivity. }
  destruct Hin as [H|[H|[H|[H|[H|[H|[]]]]]]]; inversion H; subst nm k;
    (rewrite (Hmw _ eq_refl));
    (split; [intros e ->; reflexivity|]);
    intros user -> Hb Hk;
    destruct argv as [|a [|b [|c rest]]];
    try (elim (Hk ltac:(discriminate)); reflexivity);
    try (specialize (Hb eq_refl); simpl in Hb; lia);
    eexists; reflexivity.
Qed.

Lemma wrapped_commands_look_up_user_first_witness :
  let s := demoState cfg0 [alice; bob] [] (fun _ _ => None) in
  let s0 := add_call (CallGetUser EmptyString) s in
  run (commandRegistry 1) (mkCommand "follow" ["https://wire.example/rss"]) s =
  (s0, Returned (Some (cat ["Error looking up currently logged in user ";
                            EmptyString; ": "; sql_ErrNoRows]))).
Proof.
  intros s s0.
  destruct (wrapped_commands_look_up_user_first 1 "follow" 1
              ["https://wire.example/rss"] s) as [Hfail _].
  - simpl. tauto.
  - apply Hfail. reflexivity.
Defined.

(** ** The handlers behind the login wrapper *)

(** Printing changes the output only. *)
Lemma Out_frame line (s : state) :
  let s1 := fst (Out line s) in
  calls s1 = calls s /\ config s1 = config s /\ files s1 = files s /\
  answers s1 = answers s /\ posts (db s1) = posts (db s) /\
  feeds (db s1) = feeds (db s).
Proof. repeat split. Qed.


Lemma followed_feed_none feedURL rows :
  (forall row, In row rows -> GetFeedFollowsForUserRow.Url row <> feedURL) ->
  followed_feed feedURL rows = None.
Proof.
  induction rows as [|r rows IH]; intros H; [reflexivity|].
  simpl. destruct (String.eqb_spec (GetFeedFollowsForUserRow.Url r) feedURL)
    as [Heq|_].
  - elim (H r); [left; reflexivity | exact Heq].
  - apply IH. intros row Hin. apply H. right. exact Hin.
Qed.

Lemma followed_feed_first feedURL pre row post :
  (forall r, In r pre -> GetFeedFollowsForUserRow.Url r <> feedURL) ->
  GetFeedFollowsForUserRow.Url row = feedURL ->
  followed_feed feedURL (pre ++ row :: post) =
  Some (GetFeedFollowsForUserRow.FeedID row).
Proof.
  induction pre as [|r pre IH]; intros Hpre Hrow; simpl.
  - rewrite Hrow, String.eqb_refl. reflexivity.
  - destruct (String.eqb_spec (GetFeedFollowsForUserRow.Url r) feedURL)
      as [Heq|_].
    + elim (Hpre r); [left; reflexivity | exact Heq].
    + apply IH; [|exact Hrow]. intros r' Hin. apply Hpre. right. exact Hin.
Qed.

(** X14. [handlerUnfollow] removes a follow only for a feed the user
    follows: when none of the user's followed feeds has the URL it
    returns an error and [UnfollowFeed] is not called; otherwise
    [UnfollowFeed] is called once, for the user and the first followed
    feed with that URL, and its error, if any, is returned. *)
Theorem handlerUnfollow_first_match feedURL cmd user rows (s : state) :
  args cmd = [feedURL] ->
  GetFeedFollowsForUser_at (answers s) (length (calls s)) (User.ID user) =
    Ok rows ->
  let s0 := add_call (CallGetFeedFollowsForUser (User.ID user)) s in
  ((forall row, In row rows -> GetFeedFollowsForUserRow.Url row <> feedURL) ->
   handlerUnfollow cmd user s =
   (s0, Returned (Some "you are not following this feed"))) /\
  (forall pre row post,
      rows = pre ++ row :: post ->
      (forall r, In r pre -> GetFeedFollowsForUserRow.Url r <> feedURL) ->
      GetFeedFollowsForUserRow.Url row = feedURL ->
      let arg := UnfollowFeedParams.mk (User.ID user)
                   (GetFeedFollowsForUserRow.FeedID row) in
      handlerUnfollow cmd user s =
      (add_call (CallUnfollowFeed arg) s0,
       Returned
         match UnfollowFeed_at (answers s) (S (length (calls s))) arg with
         | Some e => Some (cat ["Error unfollowing feed: "; e])
         | None => None
         end)).
Proof.
  intros Hargs Hrows s0. unfold handlerUnfollow. rewrite Hargs.
  unfold bindP, ask, fails, retP. rewrite Hrows. fold s0. split.
  - intros Hnone. rewrite (followed_feed_none feedURL rows Hnone). reflexivity.
  - intros pre row post -> Hpre Hrow.
    rewrite (followed_feed_first feedURL pre row post Hpre Hrow).
    cbv beta. unfold s0. cbn [answers calls add_call].
    rewrite length_app. cbn [length]. rewrite Nat.add_1_r.
    destruct (UnfollowFeed_at (answers s) (S (length (calls s))) _);
      reflexivity.
Qed.

Lemma handlerUnfollow_first_match_witness :
  let rows := [GetFeedFollowsForUserRow.mk "wire" "https://wire.example/rss" 8;
               GetFeedFollowsForUserRow.mk "blog" "https://blog.example/index.xml" 7;
               GetFeedFollowsForUserRow.mk "mirror" "https://blog.example/index.xml" 9] in
  let s := demoState (mkConfig "x" "alice") [alice; bob] rows (fun _ _ => None) in
  let cmd := mkCommand "unfollow" ["https://blog.example/index.xml"] in
  calls (fst (handlerUnfollow cmd alice s)) =
    [CallGetFeedFollowsForUser 1; CallUnfollowFeed (UnfollowFeedParams.mk 1 7)] /\
  snd (handlerUnfollow cmd alice s) = Returned None.
Proof.
  intros rows s cmd.
  destruct (handlerUnfollow_first_match "https://blog.example/index.xml" cmd
              alice rows s eq_refl eq_refl) as [_ H].
  rewrite (H [GetFeedFollowsForUserRow.mk "wire" "https://wire.example/rss" 8]
             (GetFeedFollowsForUserRow.mk "blog" "https://blog.example/index.xml" 7)
             [GetFeedFollowsForUserRow.mk "mirror" "https://blog.example/index.xml" 9]
             eq_refl).
  - split; reflexivity.
  - intros r [<-|[]]. discriminate.
  - reflexivity.
Defined.


Lemma append_empty (u : string) : String.append u EmptyString = u.
Proof. induction u as [|c u IH]; simpl; [|rewrite IH]; reflexivity. Qed.

Lemma print_users_stdout current users :
  forall s,
    stdout (db (fst (print_users current users s))) =
    stdout (db s) ++
    map (fun u => if String.eqb u current then String.append u " (current)"
                  else u) users.
Proof.
  induction users as [|u users IH]; intros s; simpl.
  - symmetry. apply app_nil_r.
  - unfold bindP.
    destruct (Out _ s) as [s1 []] eqn:HO.
    rewrite IH. apply (f_equal (fun x => stdout (db (fst x)))) in HO.
    rewrite stdout_Out in HO. cbn [fst] in HO.
    rewrite <- HO, <- app_assoc. f_equal. cbn [app]. f_equal.
    destruct (String.eqb u current); simpl; rewrite ?append_empty;
      reflexivity.
Qed.

(** X16. [handlerUsers] prints one line per user, in the order the
    store gives them: the name, followed by [ (current)] exactly for the
    names equal to the current user's. *)
Theorem handlerUsers_lists_users cmd users (s : state) :
  args cmd = [] ->
  GetUsers_at (answers s) (length (calls s)) = Ok users ->
  snd (handlerUsers cmd s) = Returned None /\
  stdout (db (fst (handlerUsers cmd s))) =
  stdout (db s) ++
  map (fun u => if String.eqb u (CurrentUserName (config s))
                then String.append u " (current)" else u) users.
Proof.
  intros Hargs Husers. unfold handlerUsers. rewrite Hargs.
  unfold bindP, ask, retP. rewrite Husers. cbn [config add_call].
  destruct (print_users (CurrentUserName (config s)) users _) as [s1 []] eqn:HP.
  split; [reflexivity|].
  apply (f_equal (fun x => stdout (db (fst x)))) in HP.
  rewrite print_users_stdout in HP. simpl in *. symmetry. exact HP.
Qed.

Lemma handlerUsers_lists_users_witness :
  let s := demoState (mkConfig "x" "bob") [alice; bob] [] (fun _ _ => None) in
  let cmd := mkCommand "users" [] in
  snd (handlerUsers cmd s) = Returned None /\
  stdout (db (fst (handlerUsers cmd s))) =
  stdout (db s) ++
  map (fun u => if String.eqb u "bob" then String.append u " (current)" else u)
    ["alice"; "bob"].
Proof.
  intros s cmd. apply (handlerUsers_lists_users cmd ["alice"; "bob"] s);
    reflexivity.
Defined.

Lemma handlerFollow_one feedURL cmd user (s : state) :
  args cmd = [feedURL] ->
  handlerFollow cmd user s =
  (let s0 := add_call (CallGetFeedByURL feedURL) s in
   match GetFeedByURL_at (answers s) (length (calls s)) feedURL with
   | Err err =>
       (s0, Returned (Some (cat ["Error getting feed for URL '"; feedURL;
                                 "': "; err])))
   | Ok feed =>
       let w := db s in
       let arg := CreateFeedFollowParams.mk (uuid_at (env w) (S (nonce w)))
                    (now_at (env w) (nonce w)) (now_at (env w) (nonce w))
                    (Feed.ID feed) (User.ID user) in
       let s1 := add_call (CallCreateFeedFollow arg)
                   (set_db (bump (bump w)) s0) in
       match CreateFeedFollow_at (answers s) (S (length (calls s))) arg with
       | Err err => (s1, Returned (Some (cat ["Error following feed: "; err])))
       | Ok followRec =>
           (fst (Out (cat ["User '"; CreateFeedFollowRow.UserName followRec;
                           "' is now following feed '";
                           CreateFeedFollowRow.FeedName followRec; "'"]) s1),
            Returned None)
       end
   end).
Proof.
  intros H. unfold handlerFollow. rewrite H.
  unfold bindP, ask, fails, retP, liftW, time_Now, uuid_New, set_db, add_call,
    bump.
  cbn [db config files calls answers fst snd posts feeds trace nonce env].
  destruct (GetFeedByURL_at (answers s) (length (calls s)) feedURL);
    [|reflexivity].
  cbn [db config files calls answers fst snd posts feeds trace nonce env].
  rewrite length_app. cbn [length]. rewrite Nat.add_1_r.
  destruct (CreateFeedFollow_at (answers s) (S (length (calls s))) _);
    reflexivity.
Qed.

(** X17. [handlerFollow] records a follow only for a feed the store
    finds under the URL: when the lookup fails that is its only call and
    the error is returned; when it succeeds, the follow it asks for
    joins the found feed's identity with the user's, with equal creation
    and update times, and [nil] is returned exactly when the store
    accepts it. *)
Theorem handlerFollow_links_user_and_feed feedURL cmd user (s : state) :
  args cmd = [feedURL] ->
  let answer := GetFeedByURL_at (answers s) (length (calls s)) feedURL in
  (forall e, answer = Err e ->
     handlerFollow cmd user s =
     (add_call (CallGetFeedByURL feedURL) s,
      Returned (Some (cat ["Error getting feed for URL '"; feedURL; "': "; e])))) /\
  (forall feed, answer = Ok feed ->
     let arg := CreateFeedFollowParams.mk
                  (uuid_at (env (db s)) (S (nonce (db s))))
                  (now_at (env (db s)) (nonce (db s)))
                  (now_at (env (db s)) (nonce (db s)))
                  (Feed.ID feed) (User.ID user) in
     calls (fst (handlerFollow cmd user s)) =
       calls s ++ [CallGetFeedByURL feedURL; CallCreateFeedFollow arg] /\
     (snd (handlerFollow cmd user s) = Returned None <->
      exists row,
        CreateFeedFollow_at (answers s) (S (length (calls s))) arg = Ok row)).
Proof.
  intros Hargs answer. rewrite (handlerFollow_one feedURL cmd user s Hargs).
  cbv zeta. fold answer. split.
  - intros e ->. reflexivity.
  - intros feed ->.
    destruct (CreateFeedFollow_at (answers s) (S (length (calls s))) _)
      as [row|e]; cbn [fst snd].
    + split; [simpl; rewrite <- app_assoc; reflexivity|].
      split; [intros _; exists row; reflexivity | reflexivity].
    + split; [simpl; rewrite <- app_assoc; reflexivity|].
      split; [discriminate | intros [row H]; discriminate].
Qed.

Lemma handlerFollow_links_user_and_feed_witness :
  let s := demoState (mkConfig "x" "bob") [alice; bob] [] (fun _ _ => None) in
  let cmd := mkCommand "follow" ["https://wire.example/rss"] in
  calls (fst (handlerFollow cmd bob s)) =
    [CallGetFeedByURL "https://wire.example/rss";
     CallCreateFeedFollow
       (CreateFeedFollowParams.mk 1001 1700000000 1700000000 8 2)] /\
  snd (handlerFollow cmd bob s) = Returned None.
Proof.
  intros s cmd.
  destruct (handlerFollow_links_user_and_feed "https://wire.example/rss" cmd
              bob s eq_refl) as [_ H].
  destruct (H wire eq_refl) as [Hcalls Hnil].
  split; [exact Hcalls|]. apply Hnil. eexists. reflexivity.
Defined.

(** X18. [handlerAddfeed] creates the feed for the user, then follows
    it by looking its URL up again.  When the store refuses the feed
    nothing else is asked; when the feed is created and the lookup
    fails, the creation stands, the created feed has been printed, and
    the error of the follow is returned as an autofollow error; when the
    lookup succeeds, the follow is asked for the feed the lookup
    found. *)
Theorem handlerAddfeed_creates_then_follows
    feedName feedURL cmd user (s : state) :
  args cmd = [feedName; feedURL] ->
  let w := db s in
  let arg := CreateFeedParams.mk (uuid_at (env w) (S (nonce w)))
               (now_at (env w) (nonce w)) (now_at (env w) (nonce w))
               feedName feedURL (User.ID user) in
  let created := CreateFeed_at (answers s) (length (calls s)) arg in
  let found := GetFeedByURL_at (answers s) (S (length (calls s))) feedURL in
  let s1 := fst (handlerAddfeed cmd user s) in
  (forall e, created = Err e ->
     calls s1 = calls s ++ [CallCreateFeed arg] /\
     snd (handlerAddfeed cmd user s) =
       Returned (Some (cat ["Error adding feed for user "; User.Name user;
                            ": "; e]))) /\
  (forall madeFeed e, created = Ok madeFeed -> found = Err e ->
     calls s1 = calls s ++ [CallCreateFeed arg; CallGetFeedByURL feedURL] /\
     stdout (db s1) = stdout (db s) ++ [Sprint_Feed (answers s) madeFeed] /\
     snd (handlerAddfeed cmd user s) =
       Returned (Some (cat ["Error autofollowing newly created feed: ";
                            cat ["Error getting feed for URL '"; feedURL;
                                 "': "; e]]))) /\
  (forall madeFeed feed, created = Ok madeFeed -> found = Ok feed ->
     exists id now,
       calls s1 =
       calls s ++ [CallCreateFeed arg; CallGetFeedByURL feedURL;
                   CallCreateFeedFollow
                     (CreateFeedFollowParams.mk id now now (Feed.ID feed)
                        (User.ID user))]).
Proof.
  intros Hargs w arg created found s1.
  set (sc := add_call (CallCreateFeed arg) (set_db (bump (bump w)) s)).
  assert (Hrun : handlerAddfeed cmd user s =
                 match created with
                 | Err err =>
                     (sc, Returned (Some (cat ["Error adding feed for user ";
                                               User.Name user; ": "; err])))
                 | Ok madeFeed =>
                     let sp := fst (Out (Sprint_Feed (answers s) madeFeed) sc) in
                     let r := handlerFollow (mkCommand "follow" [feedURL]) user sp in
                     (fst r,
                      match snd r with
                      | Returned (Some err) =>
                          Returned (Some (cat ["Error autofollowing newly created feed: ";
                                               err]))
                      | other => other
                      end)
                 end).
  { unfold handlerAddfeed. rewrite Hargs. unfold created, sc, arg, w.
    unfold Out, Println.
    unfold bindP, ask, fails, retP, liftW, time_Now, uuid_New, log, set_db,
      add_call, bump.
    cbn [db config files calls answers fst snd posts feeds trace nonce env].
    destruct (CreateFeed_at (answers s) (length (calls s)) _) as [madeFeed|e];
      [|reflexivity].
    cbn [db config files calls answers fst snd posts feeds trace nonce env].
    match goal with
    | |- context [handlerFollow ?c ?u ?sp] =>
        destruct (handlerFollow c u sp) as [sf [[e|]| |]]; reflexivity
    end. }
  unfold s1. rewrite Hrun. clear Hrun s1. split; [|split].
  - intros e ->. split; reflexivity.
  - intros madeFeed e -> Hfound. cbv zeta.
    rewrite (handlerFollow_one feedURL (mkCommand "follow" [feedURL]) user _
               eq_refl). cbv zeta.
    assert (Hlen : length (calls (fst (Out (Sprint_Feed (answers s) madeFeed) sc)))
                   = S (length (calls s))).
    { simpl. rewrite length_app. simpl. lia. }
    rewrite Hlen. cbn [answers Out liftW Println fst sc add_call set_db db].
    fold found. rewrite Hfound. cbn [fst snd]. split; [|split].
    + simpl. rewrite <- app_assoc. reflexivity.
    + unfold stdout. simpl. rewrite stdout_of_app. reflexivity.
    + reflexivity.
  - intros madeFeed feed -> Hfound. cbv zeta.
    rewrite (handlerFollow_one feedURL (mkCommand "follow" [feedURL]) user _
               eq_refl). cbv zeta.
    assert (Hlen : length (calls (fst (Out (Sprint_Feed (answers s) madeFeed) sc)))
                   = S (length (calls s))).
    { simpl. rewrite length_app. simpl. lia. }
    rewrite Hlen. cbn [answers Out liftW Println fst sc add_call set_db db].
    fold found. rewrite Hfound.
    eexists. eexists.
    destruct (CreateFeedFollow_at _ _ _); simpl;
      rewrite <- !app_assoc; reflexivity.
Qed.

(** A feed is added under a URL the store does not find again: it
    stays created, and the command fails. *)
Lemma handlerAddfeed_creates_then_follows_witness :
  let s := demoState (mkConfig "x" "bob") [alice; bob] [] (fun _ _ => None) in
  let cmd := mkCommand "addfeed" ["news"; "https://news.example/rss"] in
  let arg := CreateFeedParams.mk 1001 1700000000 1700000000 "news"
               "https://news.example/rss" 2 in
  let s1 := fst (handlerAddfeed cmd bob s) in
  calls s1 = calls s ++ [CallCreateFeed arg;
                         CallGetFeedByURL "https://news.example/rss"] /\
  stdout (db s1) = stdout (db s) ++ ["news"] /\
  snd (handlerAddfeed cmd bob s) =
    Returned (Some (cat ["Error autofollowing newly created feed: ";
                         cat ["Error getting feed for URL '";
                              "https://news.example/rss"; "': ";
                              sql_ErrNoRows]])).
Proof.
  intros s cmd arg s1.
  destruct (handlerAddfeed_creates_then_follows "news"
              "https://news.example/rss" cmd bob s eq_refl) as (_ & H & _).
  exact (H (Feed.mk 1001 1700000000 1700000000 "news"
              "https://news.example/rss" 2 None) sql_ErrNoRows eq_refl eq_refl).
Defined.

(** ** The query [GetPostsForUser] *)

Lemma In_insert_by_date p x (l : list Post.t) :
  In x (insert_by_date p l) <-> x = p \/ In x l.
Proof.
  induction l as [|q l IH]; simpl.
  - split; [intros [H|[]]; left; symmetry; exact H
           | intros [H|[]]; left; symmetry; exact H].
  - destruct (Post.PublishedAt q <? Post.PublishedAt p); simpl.
    + split; [intros [H|H]; [left; symmetry; exact H | right; exact H]
             | intros [H|H]; [left; symmetry; exact H | right; exact H]].
    + rewrite IH. tauto.
Qed.

Lemma In_order_by_published_desc x (l : list Post.t) :
  In x (order_by_published_desc l) <-> In x l.
Proof.
  induction l as [|p l IH]; simpl; [tauto|].
  rewrite In_insert_by_date, IH. split; intros [H|H]; auto.
Qed.

Lemma length_insert_by_date p (l : list Post.t) :
  length (insert_by_date p l) = S (length l).
Proof.
  induction l as [|q l IH]; simpl; [reflexivity|].
  destruct (Post.PublishedAt q <? Post.PublishedAt p); simpl;
    [|rewrite IH]; reflexivity.
Qed.

Lemma length_order_by_published_desc (l : list Post.t) :
  length (order_by_published_desc l) = length l.
Proof.
  induction l as [|p l IH]; simpl; [reflexivity|].
  rewrite length_insert_by_date, IH. reflexivity.
Qed.

Lemma insert_by_date_newest_first p (l : list Post.t) :
  newest_first l -> newest_first (insert_by_date p l).
Proof.
  induction l as [|q l IH]; simpl; [intros _; split; [intros ? []|exact I]|].
  intros [Hq Hl].
  destruct (Z.ltb_spec (Post.PublishedAt q) (Post.PublishedAt p)); simpl.
  - split; [|split; assumption].
    intros x [<-|Hx]; [lia|]. specialize (Hq x Hx). lia.
  - split; [|apply IH; exact Hl].
    intros x Hx. apply In_insert_by_date in Hx.
    destruct Hx as [->|Hx]; [lia | apply Hq; exact Hx].
Qed.

Lemma order_by_published_desc_newest_first (l : list Post.t) :
  newest_first (order_by_published_desc l).
Proof.
  induction l as [|p l IH]; simpl; [exact I|].
  apply insert_by_date_newest_first. exact IH.
Qed.

Lemma newest_first_split (l1 l2 : list Post.t) :
  newest_first (l1 ++ l2) ->
  newest_first l1 /\
  forall p q, In p l1 -> In q l2 -> Post.PublishedAt q <= Post.PublishedAt p.
Proof.
  induction l1 as [|x l1 IH]; simpl.
  - intros _. split; [exact I | intros p q []].
  - intros [Hx Hrest]. destruct (IH Hrest) as [Hl1 Hcross]. split.
    + split; [|exact Hl1]. intros q Hq. apply Hx. apply in_or_app. left. exact Hq.
    + intros p q [<-|Hp] Hq.
      * apply Hx. apply in_or_app. right. exact Hq.
      * apply Hcross; assumption.
Qed.

Lemma In_posts_joined users follows ps id p :
  In p (posts_joined users follows ps id) <->
  In p ps /\
  exists ff u,
    In ff follows /\ In u users /\ User.ID u = id /\
    FeedFollow.UserID ff = id /\ FeedFollow.FeedID ff = Post.FeedID p.
Proof.
  unfold posts_joined. rewrite in_flat_map. split.
  - intros (ff & Hff & Hin). apply in_flat_map in Hin.
    destruct Hin as (u & Hu & Hin).
    destruct (Z.eqb_spec (User.ID u) (FeedFollow.UserID ff)) as [E1|];
      [|destruct Hin].
    destruct (Z.eqb_spec (User.ID u) id) as [E2|]; [|destruct Hin].
    simpl in Hin. apply filter_In in Hin. destruct Hin as [Hp Hfeed].
    apply Z.eqb_eq in Hfeed. split; [exact Hp|].
    exists ff, u. repeat split; auto; congruence.
  - intros (Hp & ff & u & Hff & Hu & E2 & E1 & Hfeed).
    exists ff. split; [exact Hff|]. apply in_flat_map. exists u.
    split; [exact Hu|].
    rewrite E2, E1, !Z.eqb_refl. simpl. apply filter_In.
    split; [exact Hp | apply Z.eqb_eq; exact Hfeed].
Qed.

(** X19. What the query gives [handlerBrowse]: an error exactly for a
    negative limit; otherwise at most [limit] rows, newest first, each a
    stored post of a feed the user follows, and no post of a followed
    feed that was left out is more recent than one that was returned;
    when the limit covers them, every post of a followed feed is
    returned. *)
Theorem GetPostsForUser_result users follows ps arg :
  let id := GetPostsForUserParams.ID arg in
  let limit := GetPostsForUserParams.Limit arg in
  let visible := fun p =>
    In p ps /\
    exists ff u,
      In ff follows /\ In u users /\ User.ID u = id /\
      FeedFollow.UserID ff = id /\ FeedFollow.FeedID ff = Post.FeedID p in
  match GetPostsForUser users follows ps arg with
  | Err _ => limit < 0
  | Ok rows =>
      0 <= limit /\
      Z.of_nat (length rows) <= limit /\
      newest_first rows /\
      (forall p, In p rows -> visible p) /\
      (forall p q, In p rows -> visible q -> ~ In q rows ->
                   Post.PublishedAt q <= Post.PublishedAt p) /\
      (Z.of_nat (length (posts_joined users follows ps id)) <= limit ->
       forall q, visible q -> In q rows)
  end.
Proof.
  cbv zeta. unfold GetPostsForUser.
  destruct (Z.ltb_spec (GetPostsForUserParams.Limit arg) 0) as [Hneg|Hpos];
    [exact Hneg|].
  set (k := Z.to_nat (GetPostsForUserParams.Limit arg)).
  set (all := order_by_published_desc
                (posts_joined users follows ps (GetPostsForUserParams.ID arg))).
  assert (Hsplit : all = firstn k all ++ skipn k all)
    by (symmetry; apply firstn_skipn).
  pose proof (order_by_published_desc_newest_first
                (posts_joined users follows ps (GetPostsForUserParams.ID arg)))
    as Hsorted.
  fold all in Hsorted. rewrite Hsplit in Hsorted.
  apply newest_first_split in Hsorted. destruct Hsorted as [Hfirst Hcross].
  assert (Hvis : forall p, In p all <->
             In p ps /\
             exists ff u,
               In ff follows /\ In u users /\
               User.ID u = GetPostsForUserParams.ID arg /\
               FeedFollow.UserID ff = GetPostsForUserParams.ID arg /\
               FeedFollow.FeedID ff = Post.FeedID p).
  { intros p. unfold all. rewrite In_order_by_published_desc.
    apply In_posts_joined. }
  split; [exact Hpos|]. split; [|split; [exact Hfirst|split; [|split]]].
  - rewrite length_firstn. unfold k. lia.
  - intros p Hp. apply Hvis. rewrite Hsplit. apply in_or_app. left. exact Hp.
  - intros p q Hp Hq Hnot. apply Hcross; [exact Hp|].
    apply Hvis in Hq. rewrite Hsplit in Hq. apply in_app_or in Hq.
    destruct Hq as [Hq|Hq]; [contradiction | exact Hq].
  - intros Hlen q Hq. apply Hvis in Hq.
    rewrite firstn_all2; [exact Hq|].
    unfold all. rewrite length_order_by_published_desc. unfold k. lia.
Qed.
